(** * IntrinsicCompositing: the manual compositing pipeline

    A shallow embedding of [custom/manual_pipeline.py].  The function
    [run_full_pipeline] loads a background and a transparent foreground,
    rescales both, queries five external models, composites the foreground
    patch into every background buffer at one placement, harmonizes the
    albedo, fits light coefficients and runs the reshading model.

    - Python [int] is [Z]; Python [float] is IEEE binary64, computed with the
      Standard Library's [SpecFloat] (precision 53, emax 1024).
    - A raised exception is the [Raise] branch of [result]; statements are
      sequenced in the error monad.
    - A numpy array is a shape together with an indexing function.
    - Pixel arithmetic (numpy [float32]/[float64] element operations) is the
      interface [Arith]; the external models and library functions are the
      interface [Collaborators]. *)

From Stdlib Require Import ZArith List Sorted Lia Bool.
From Stdlib Require Import QArith Qcanon.
From Stdlib Require Import SpecFloat.
Import ListNotations.

Open Scope Z_scope.

(* ================================================================== *)
(** * Python runtime: exceptions and sequencing *)

Inductive exn : Type :=
| ZeroDivisionError
| ValueError
| OverflowError
| IndexError
| DegenerateMask
| ExternalModelFailure.

Inductive result (A : Type) : Type :=
| Ok (a : A)
| Raise (e : exn).

Arguments Ok {A} a.
Arguments Raise {A} e.

Definition bind {A B : Type} (r : result A) (k : A -> result B) : result B :=
  match r with
  | Ok a => k a
  | Raise e => Raise e
  end.

Notation "x <- e ;; k" := (bind e (fun x => k))
  (at level 61, e at next level, right associativity).
Notation "' pat <- e ;; k" := (bind e (fun x => match x with pat => k end))
  (at level 61, pat pattern, e at next level, right associativity).

Definition is_ok {A : Type} (r : result A) : bool :=
  match r with Ok _ => true | Raise _ => false end.

(* ================================================================== *)
(** * Python floats (IEEE binary64) *)

Definition prec : Z := 53.
Definition emax : Z := 1024.

Definition pyfloat : Type := spec_float.

(** [float(n)] for an int: the nearest binary64 (exact below 2^53). *)
Definition float_of_int (n : Z) : pyfloat := binary_normalize prec emax n 0 false.

Definition fmul : pyfloat -> pyfloat -> pyfloat := SFmul prec emax.
Definition fdiv : pyfloat -> pyfloat -> pyfloat := SFdiv prec emax.

Definition is_infinite (x : pyfloat) : bool :=
  match x with S754_infinity _ => true | _ => false end.

(** [a / b] on two ints or on a float and an int: true division.  A zero
    divisor raises; a quotient beyond the float range raises.  (The operands
    are converted first, which is exact for magnitudes below 2^53.) *)
Definition truediv (a b : Z) : result pyfloat :=
  if b =? 0 then Raise ZeroDivisionError
  else
    let q := fdiv (float_of_int a) (float_of_int b) in
    if is_infinite q then Raise OverflowError else Ok q.

(** [n * x] (or [x * n]) for an int [n] and a float [x]. *)
Definition int_times_float (n : Z) (x : pyfloat) : result pyfloat :=
  let f := float_of_int n in
  if is_infinite f then Raise OverflowError else Ok (fmul f x).

(** [int(x)]: truncation toward zero; NaN and the infinities raise. *)
Definition py_int (x : pyfloat) : result Z :=
  match x with
  | S754_zero _ => Ok 0
  | S754_finite s m e =>
      let a := match e with
               | Z0 => Zpos m
               | Zpos p => Z.shiftl (Zpos m) (Zpos p)
               | Zneg p => Z.shiftr (Zpos m) (Zpos p)
               end in
      Ok (if s then - a else a)
  | S754_infinity _ => Raise OverflowError
  | S754_nan => Raise ValueError
  end.

(** [int(n * x)], the pattern of lines 64-65, 82-83, 128-129, 136-137 and
    203-204. *)
Definition int_scaled (n : Z) (x : pyfloat) : result Z :=
  p <- int_times_float n x ;;
  py_int p.

(** The literal [2.2]: the binary64 nearest to 22/10. *)
Definition gamma : pyfloat := fdiv (float_of_int 22) (float_of_int 10).

(** Module-level configuration (lines 289-291). *)
Definition MAX_EDGE_SIZE : Z := 1024.
Definition FG_RELATIVE_SCALE : pyfloat := fdiv (float_of_int 25) (float_of_int 100).
Definition FG_TOP_LEFT_POS : pyfloat * pyfloat :=
  (fdiv (float_of_int 35) (float_of_int 100),
   fdiv (float_of_int 34) (float_of_int 100)).

(** The resizing arithmetic written inline three times in the source:
<<
    max_dim = max(h, w)
    scale = target / max_dim
    new_h = int(h * scale)
    new_w = int(w * scale)
>>
    (lines 62-65 with [max_edge_size], lines 80-83 with [MAX_EDGE_SIZE],
    lines 202-204 with [512.0]). *)
Definition rescaled_shape (target h w : Z) : result (Z * Z) :=
  let max_dim := Z.max h w in
  scale <- truediv target max_dim ;;
  new_h <- int_scaled h scale ;;
  new_w <- int_scaled w scale ;;
  Ok (new_h, new_w).

(* ================================================================== *)
(** * Pixel arithmetic and numpy arrays *)

(** Element arithmetic of the float arrays.  [truthy] is numpy's truth value
    of an element (what [np.any] tests); [vpow x e] is [x ** e];
    [to_float32 x] is the value stored when [x] is assigned into an array of
    dtype [np.float32]. *)
Class Arith : Type := {
  val : Type;
  v0 : val;
  v1 : val;
  vadd : val -> val -> val;
  vsub : val -> val -> val;
  vmul : val -> val -> val;
  vdiv : val -> val -> val;
  vpow : val -> pyfloat -> val;
  truthy : val -> bool;
  to_float32 : val -> val
}.

Section Arrays.
Context {A : Arith}.

(** A 2-D array of shape [(p_h, p_w)]: masks, depth maps. *)
Record plane : Type := mkPlane {
  p_h : Z;
  p_w : Z;
  p_at : Z -> Z -> val
}.

(** A 3-D array of shape [(i_h, i_w, i_c)]: colour, normals, shading. *)
Record image : Type := mkImage {
  i_h : Z;
  i_w : Z;
  i_c : Z;
  i_at : Z -> Z -> Z -> val
}.

Definition plane_shape (p : plane) : Z * Z := (p_h p, p_w p).
Definition image_shape (m : image) : Z * Z := (i_h m, i_w m).

(** [np.zeros((h, w))]; a negative dimension raises. *)
Definition np_zeros (h w : Z) : result plane :=
  if (h <? 0) || (w <? 0) then Raise ValueError
  else Ok (mkPlane h w (fun _ _ => v0)).

(** One bound of a slice [a:b] on an axis of length [len]: a negative bound
    counts from the end, and every bound is clamped to the axis. *)
Definition adjust_index (len i : Z) : Z :=
  if i <? 0 then Z.max 0 (i + len) else Z.min i len.

Definition slice_len (start stop : Z) : Z := Z.max 0 (stop - start).

(** [m[r0:r1, c0:c1]] *)
Definition crop_plane (m : plane) (r0 r1 c0 c1 : Z) : plane :=
  let rs := adjust_index (p_h m) r0 in
  let re := adjust_index (p_h m) r1 in
  let cs := adjust_index (p_w m) c0 in
  let ce := adjust_index (p_w m) c1 in
  mkPlane (slice_len rs re) (slice_len cs ce)
          (fun i j => p_at m (rs + i) (cs + j)).

(** [m[r0:r1, c0:c1, :]] *)
Definition crop_image (m : image) (r0 r1 c0 c1 : Z) : image :=
  let rs := adjust_index (i_h m) r0 in
  let re := adjust_index (i_h m) r1 in
  let cs := adjust_index (i_w m) c0 in
  let ce := adjust_index (i_w m) c1 in
  mkImage (slice_len rs re) (slice_len cs ce) (i_c m)
          (fun i j k => i_at m (rs + i) (cs + j) k).

(** [m[:, :, k]]: an index outside the channel axis raises. *)
Definition chan (m : image) (k : Z) : result plane :=
  let k' := if k <? 0 then k + i_c m else k in
  if (0 <=? k') && (k' <? i_c m)
  then Ok (mkPlane (i_h m) (i_w m) (fun i j => i_at m i j k'))
  else Raise IndexError.

(** [m[:, :, a:b]] *)
Definition chans (m : image) (a b : Z) : image :=
  let ks := adjust_index (i_c m) a in
  let ke := adjust_index (i_c m) b in
  mkImage (i_h m) (i_w m) (slice_len ks ke)
          (fun i j k => i_at m i j (ks + k)).

(** [p[:, :, np.newaxis]] *)
Definition add_chan (p : plane) : image :=
  mkImage (p_h p) (p_w p) 1 (fun i j _ => p_at p i j).

(** numpy broadcasting of one axis: extent [src] fits extent [dst] when they
    agree or [src] is 1. *)
Definition fits (src dst : Z) : bool := (src =? dst) || (src =? 1).

Definition pick (extent i : Z) : Z := if extent =? 1 then 0 else i.

(** [a[r0:r1, c0:c1] = b] for an array [a] of dtype [np.float32] (both
    canvases of lines 141 and 147 are): the slice is clamped to [a]; [b]
    must broadcast to the shape of the clamped slice, otherwise numpy raises
    "could not broadcast input array"; the values of [b] are cast to
    [np.float32] as they are stored. *)
Definition set_slice (a : plane) (r0 r1 c0 c1 : Z) (b : plane) : result plane :=
  let rs := adjust_index (p_h a) r0 in
  let re := adjust_index (p_h a) r1 in
  let cs := adjust_index (p_w a) c0 in
  let ce := adjust_index (p_w a) c1 in
  if fits (p_h b) (slice_len rs re) && fits (p_w b) (slice_len cs ce)
  then Ok (mkPlane (p_h a) (p_w a)
             (fun i j =>
                if (rs <=? i) && (i <? re) && (cs <=? j) && (j <? ce)
                then to_float32
                       (p_at b (pick (p_h b) (i - rs)) (pick (p_w b) (j - cs)))
                else p_at a i j))
  else Raise ValueError.

(** Extent of a broadcast axis of a binary element operation. *)
Definition common (a b : Z) : option Z :=
  if a =? b then Some a
  else if a =? 1 then Some b
  else if b =? 1 then Some a
  else None.

(** [x op y] element by element, with broadcasting. *)
Definition elementwise (op : val -> val -> val) (x y : image) : result image :=
  match common (i_h x) (i_h y), common (i_w x) (i_w y), common (i_c x) (i_c y) with
  | Some h, Some w, Some c =>
      Ok (mkImage h w c
            (fun i j k =>
               op (i_at x (pick (i_h x) i) (pick (i_w x) j) (pick (i_c x) k))
                  (i_at y (pick (i_h y) i) (pick (i_w y) j) (pick (i_c y) k))))
  | _, _, _ => Raise ValueError
  end.

(** [x ** e] *)
Definition image_pow (x : image) (e : pyfloat) : image :=
  mkImage (i_h x) (i_w x) (i_c x) (fun i j k => vpow (i_at x i j k) e).

(* ================================================================== *)
(** * The [utils] helpers *)

Definition zrange (n : Z) : list Z := map Z.of_nat (seq 0 (Z.to_nat n)).

Definition row_any (mask : plane) (i : Z) : bool :=
  existsb (fun j => truthy (p_at mask i j)) (zrange (p_w mask)).

Definition col_any (mask : plane) (j : Z) : bool :=
  existsb (fun i => truthy (p_at mask i j)) (zrange (p_h mask)).

(** Modelled from the spec: [utils.get_bbox] is not part of the sources.
    The spec (4.1, 7, 8) has [bbox(mask)] return
    [(row_min, row_max, col_min, col_max)], the tightest rectangle that
    contains the non-zero mask entries, with [row_min <= row_max] and
    [col_min <= col_max], and report [DegenerateMask] on an entirely zero
    mask. *)
Definition get_bbox (mask : plane) : result (Z * Z * Z * Z) :=
  let rows := filter (row_any mask) (zrange (p_h mask)) in
  let cols := filter (col_any mask) (zrange (p_w mask)) in
  match rows, cols with
  | r :: _, c :: _ => Ok (r, last rows r, c, last cols c)
  | _, _ => Raise DegenerateMask
  end.

(** [m*s + (1-m)*d] *)
Definition blend (m s d : val) : val :=
  vadd (vmul m s) (vmul (vsub v1 m) d).

(** The pixels of the canvas covered by a patch of [h] rows and [w] columns
    placed at [loc]. *)
Definition in_footprint (loc : Z * Z) (h w : Z) (i j : Z) : bool :=
  (fst loc <=? i) && (i <? fst loc + h) && (snd loc <=? j) && (j <? snd loc + w).

(** Modelled from the spec: [utils.composite_crop] is not part of the
    sources.  The spec (4.2) has
    [composite(dst, placement, src, mask)] return a new buffer of the
    destination's extents with
    [mask[p]*src[p] + (1 - mask[p])*dst[p]] at every pixel [p] inside the
    placement footprint and [dst[p]] elsewhere, for any channel count, the
    footprint being clamped by the destination's own extents. *)
Definition composite_crop (img : image) (loc : Z * Z) (fg : image) (mask : plane) : image :=
  mkImage (i_h img) (i_w img) (i_c img)
    (fun i j k =>
       if in_footprint loc (i_h fg) (i_w fg) i j
       then blend (p_at mask (i - fst loc) (j - snd loc))
                  (i_at fg (i - fst loc) (j - snd loc) k)
                  (i_at img i j k)
       else i_at img i j k).

(** Modelled from the spec: [utils.composite_depth] is not part of the
    sources.  The spec (4.2) has depth compositing be a direct value
    substitution: within the mask the foreground depth is painted over the
    background depth, with no depth ordering or occlusion test. *)
Definition composite_depth (img : plane) (loc : Z * Z) (fg : plane) (mask : plane) : plane :=
  mkPlane (p_h img) (p_w img)
    (fun i j =>
       if in_footprint loc (p_h fg) (p_w fg) i j
       then
         let m := p_at mask (i - fst loc) (j - snd loc) in
         vadd (vmul m (p_at fg (i - fst loc) (j - snd loc)))
              (vmul (vsub v1 m) (p_at img i j))
       else p_at img i j).

End Arrays.

(* ================================================================== *)
(** * External collaborators *)

(** The imported functions whose code lies outside the repository:
    [skimage.transform.resize] (on 3-D and on 2-D arrays, with its
    [anti_aliasing] keyword when the call passes it), the depth, intrinsic
    decomposition and normals estimators, the albedo harmonizer,
    [chrislib.general.uninvert], the light-coefficient fit and the reshading
    model.  Every call may raise. *)
Class Collaborators (A : Arith) : Type := {
  coeffs_t : Type;
  resize : image -> Z * Z -> option bool -> result image;
  resize2 : plane -> Z * Z -> option bool -> result plane;
  get_depth : image -> result plane;
  run_pipeline : image -> result (plane * image);
  get_omni_normals : image -> result image;
  harmonize_albedo : image -> image -> image -> result image;
  uninvert : image -> result image;
  get_light_coeffs : plane -> image -> image -> result (coeffs_t * image);
  compute_reshading :
    image -> image -> image -> plane -> image -> image -> coeffs_t -> result image
}.

Section Pipeline.
Context {A : Arith} {C : Collaborators A}.

(** The local variables of one run of [run_full_pipeline], under their
    source names; [harmonizer_output] is the value of the call of line 185
    before [** 2.2] is applied to it. *)
Record locals : Type := mkLocals {
  bg_height : Z;
  bg_width : Z;
  bg_im : image;
  cropped_height : Z;
  cropped_width : Z;
  fg_im_crop : image;
  fg_mask_crop : plane;
  im_depth : plane;
  fg_im_depth : plane;
  im_inv_shading : image;
  im_albedo : image;
  fg_im_inv_shading : image;
  fg_im_albedo : image;
  im_normals : image;
  fg_im_normals : image;
  fg_scaled_height : Z;
  fg_scaled_width : Z;
  fg_im_rescaled : image;
  fg_mask_rescaled : plane;
  fg_depth_rescaled : plane;
  fg_inv_shading_rescaled : image;
  fg_normals_rescaled : image;
  top : Z;
  left : Z;
  fg_full_mask : image;
  fg_full_depth : plane;
  comp : image;
  comp_depth : plane;
  comp_inv_shading : image;
  comp_normals : image;
  harmonizer_output : image;
  comp_albedo_harmonized : image;
  original_albedo : image;
  comp_harmonized : image;
  small_height : Z;
  small_width : Z;
  small_bg_im : image;
  small_bg_normals : image;
  small_bg_inv_shading : image;
  coeffs : coeffs_t;
  light_vis : image;
  main_result : image
}.

(** [run_full_pipeline] (lines 31-232).  The two images are what
    [load_image] returned for [bg_im_path] and [fg_im_path]; model loading
    and the writes of step 8 are left out. *)
Definition run_full_pipeline
    (bg_im_original fg_im_transparent : image)
    (fg_top_left_pos : pyfloat * pyfloat)
    (fg_scale_relative : pyfloat)
    (max_edge_size : Z) : result locals :=
  (* 2.1 load & resize bg_im *)
  ' (bg_height, bg_width) <-
      rescaled_shape max_edge_size (i_h bg_im_original) (i_w bg_im_original) ;;
  bg_im <- resize bg_im_original (bg_height, bg_width) None ;;
  (* 2.2 load, resize, and apply mask to fg_im *)
  let fg_im := chans fg_im_transparent 0 3 in
  fg_mask <- chan fg_im_transparent 3 ;;
  bb <- get_bbox fg_mask ;;
  let '(bb0, bb1, bb2, bb3) := bb in
  let fg_im_crop := crop_image fg_im bb0 bb1 bb2 bb3 in
  let fg_mask_crop := crop_plane fg_mask bb0 bb1 bb2 bb3 in
  ' (cropped_height, cropped_width) <-
      rescaled_shape MAX_EDGE_SIZE (i_h fg_im_crop) (i_w fg_im_crop) ;;
  fg_im_crop <- resize fg_im_crop (cropped_height, cropped_width) None ;;
  fg_mask_crop <- resize2 fg_mask_crop (cropped_height, cropped_width) None ;;
  (* 3.1, 3.2 depth maps *)
  im_depth <- get_depth bg_im ;;
  fg_im_depth <- get_depth fg_im_crop ;;
  (* 4.1 bg shading & albedo *)
  ' (inv_shading, im_albedo) <- run_pipeline (image_pow bg_im gamma) ;;
  let im_inv_shading := add_chan inv_shading in
  (* 4.2 fg shading & albedo *)
  ' (inv_shading, fg_im_albedo) <- run_pipeline (image_pow fg_im_crop gamma) ;;
  let fg_im_inv_shading := add_chan inv_shading in
  (* 5.1, 5.2 normals *)
  im_normals <- get_omni_normals bg_im ;;
  fg_im_normals <- get_omni_normals fg_im_crop ;;
  (* 6.1 compute rescaled images *)
  fg_scaled_height <- int_scaled cropped_height fg_scale_relative ;;
  fg_scaled_width <- int_scaled cropped_width fg_scale_relative ;;
  let size := (fg_scaled_height, fg_scaled_width) in
  fg_im_rescaled <- resize fg_im_crop size (Some true) ;;
  fg_mask_rescaled <- resize2 fg_mask_crop size (Some true) ;;
  fg_depth_rescaled <- resize2 fg_im_depth size (Some true) ;;
  fg_inv_shading_rescaled <- resize fg_im_inv_shading size (Some true) ;;
  fg_normals_rescaled <- resize fg_im_normals size (Some true) ;;
  top <- int_scaled bg_height (fst fg_top_left_pos) ;;
  left <- int_scaled bg_width (snd fg_top_left_pos) ;;
  (* 6.2 get fg_rescaled images *)
  fg_full_mask <- np_zeros bg_height bg_width ;;
  fg_full_mask <- set_slice fg_full_mask top (top + fg_scaled_height)
                    left (left + fg_scaled_width) fg_mask_rescaled ;;
  let fg_full_mask := add_chan fg_full_mask in
  fg_full_depth <- np_zeros bg_height bg_width ;;
  fg_full_depth <- set_slice fg_full_depth top (top + fg_scaled_height)
                     left (left + fg_scaled_width) fg_depth_rescaled ;;
  (* 6.3 get composites *)
  let comp := composite_crop bg_im (top, left) fg_im_rescaled fg_mask_rescaled in
  let comp_depth :=
    composite_depth im_depth (top, left) fg_depth_rescaled fg_mask_rescaled in
  let comp_inv_shading :=
    composite_crop im_inv_shading (top, left) fg_inv_shading_rescaled fg_mask_rescaled in
  let comp_normals :=
    composite_crop im_normals (top, left) fg_normals_rescaled fg_mask_rescaled in
  (* 7.1 harmonize albedo *)
  harmonizer_output <- harmonize_albedo comp fg_full_mask comp_inv_shading ;;
  let comp_albedo_harmonized := image_pow harmonizer_output gamma in
  shading <- uninvert comp_inv_shading ;;
  original_albedo <- elementwise vdiv (image_pow comp gamma) shading ;;
  shading <- uninvert comp_inv_shading ;;
  comp_harmonized <- elementwise vmul comp_albedo_harmonized shading ;;
  (* 7.2 get shading coefficients *)
  ' (small_height, small_width) <- rescaled_shape 512 bg_height bg_width ;;
  small_bg_im <- resize bg_im (small_height, small_width) (Some true) ;;
  small_bg_normals <- get_omni_normals small_bg_im ;;
  small_bg_inv_shading <-
    resize im_inv_shading (small_height, small_width) (Some true) ;;
  small_plane <- chan small_bg_inv_shading 0 ;;
  ' (coeffs, light_vis) <-
      get_light_coeffs small_plane small_bg_normals small_bg_im ;;
  (* 7.3 run reshading model *)
  main_result <- compute_reshading comp_harmonized fg_full_mask comp_inv_shading
                   comp_depth comp_normals comp_albedo_harmonized coeffs ;;
  Ok (mkLocals bg_height bg_width bg_im cropped_height cropped_width
        fg_im_crop fg_mask_crop im_depth fg_im_depth im_inv_shading im_albedo
        fg_im_inv_shading fg_im_albedo im_normals fg_im_normals
        fg_scaled_height fg_scaled_width fg_im_rescaled fg_mask_rescaled
        fg_depth_rescaled fg_inv_shading_rescaled fg_normals_rescaled
        top left fg_full_mask fg_full_depth
        comp comp_depth comp_inv_shading comp_normals
        harmonizer_output comp_albedo_harmonized original_albedo comp_harmonized
        small_height small_width small_bg_im small_bg_normals
        small_bg_inv_shading coeffs light_vis main_result).

End Pipeline.

(* ================================================================== *)
(** * Vocabulary of the statements *)

Section Vocabulary.
Context {A : Arith}.

(** The interface contracts of the collaborators (spec section 6): a resize
    returns the requested spatial size and keeps the channels; each
    estimator returns buffers of the spatial size of its input. *)
Class ShapeContracts (C : Collaborators A) : Prop := {
  resize_shape : forall m h w aa r,
    resize m (h, w) aa = Ok r -> i_h r = h /\ i_w r = w /\ i_c r = i_c m;
  resize2_shape : forall m h w aa r,
    resize2 m (h, w) aa = Ok r -> p_h r = h /\ p_w r = w;
  get_depth_shape : forall m d,
    get_depth m = Ok d -> p_h d = i_h m /\ p_w d = i_w m;
  run_pipeline_shape : forall m s a,
    run_pipeline m = Ok (s, a) ->
    (p_h s = i_h m /\ p_w s = i_w m) /\ (i_h a = i_h m /\ i_w a = i_w m);
  get_omni_normals_shape : forall m n,
    get_omni_normals m = Ok n -> i_h n = i_h m /\ i_w n = i_w m
}.

Definition const_plane (h w : Z) (v : val) : plane := mkPlane h w (fun _ _ => v).
Definition const_image (h w c : Z) (v : val) : image := mkImage h w c (fun _ _ _ => v).

(** A non-zero entry of the mask at [(i, j)]. *)
Definition nonzero_at (mask : plane) (i j : Z) : Prop :=
  0 <= i < p_h mask /\ 0 <= j < p_w mask /\ truthy (p_at mask i j) = true.

Definition entirely_zero (mask : plane) : Prop :=
  forall i j, 0 <= i < p_h mask -> 0 <= j < p_w mask -> truthy (p_at mask i j) = false.

(** The rectangle of rows [r0..r1] and columns [c0..c1] (bounds included)
    contains every non-zero entry. *)
Definition encloses (mask : plane) (r0 r1 c0 c1 : Z) : Prop :=
  forall i j, nonzero_at mask i j -> r0 <= i <= r1 /\ c0 <= j <= c1.

End Vocabulary.

(** The side that [rescaled_shape] gives to a square of side [m] is the
    target or one less. *)
Definition long_side_ok (target m : Z) : bool :=
  match rescaled_shape target m m with
  | Ok (a, _) => (a =? target) || (a =? target - 1)
  | Raise _ => false
  end.

Definition sides (n : nat) : list Z := map Z.of_nat (seq 1 n).

(** The largest side for which the extents are checked by evaluation. *)
Definition max_side : Z := 4096.

(** The sign bit of a float is [s]; NaN carries no sign. *)
Definition has_sign (s : bool) (x : pyfloat) : Prop :=
  match x with
  | S754_zero s' | S754_infinity s' | S754_finite s' _ _ => s' = s
  | S754_nan => True
  end.

(** Where a slice bound [i] falls on an axis of length [len] before it is
    clamped: a negative bound counts from the end. *)
Definition wrap_index (len i : Z) : Z := if i <? 0 then i + len else i.

(** The offsets at which a patch of extent [h] can be written on an axis of
    length [len] by [a[start : start + h] = patch]: inside the axis, or
    wholly negative and counted from the end. *)
Definition lands (len start h : Z) : Prop :=
  (0 <= start /\ start + h <= len) \/ (- len <= start /\ start + h < 0).

(* ================================================================== *)
(** * Element arithmetic of numpy [float64] arrays *)

Module Binary64.



(** 1.0 *)
Definition one : pyfloat := S754_finite false 4503599627370496 (-52).

(** [x.astype(np.float32)], read back as a binary64 number: rounding to
    nearest even at precision 24 with the exponent range of binary32. *)
Definition round32 (x : pyfloat) : pyfloat :=
  match x with
  | S754_finite s m e =>
      match binary_round 24 128 s m e with
      | S754_finite s' m' e' => binary_round prec emax s' m' e'
      | y => y
      end
  | _ => x
  end.










End Binary64.

(* ================================================================== *)
(** * A deterministic instance: rational pixels, sampling collaborators *)

Module Demo.

Definition trunc_exponent (e : pyfloat) : nat :=
  match py_int e with Ok n => Z.to_nat n | Raise _ => O end.

(** Exact rational element arithmetic; the power keeps the integer part of
    the exponent, and a cast does not round. *)
Definition QcArith : Arith := {|
  val := Qc;
  v0 := 0%Qc;
  v1 := 1%Qc;
  vadd := Qcplus;
  vsub := Qcminus;
  vmul := Qcmult;
  vdiv := Qcdiv;
  vpow := fun x e => Qcpower x (trunc_exponent e);
  truthy := fun x => negb (Qeq_bool (this x) 0);
  to_float32 := fun x => x
|}.

#[local] Existing Instance QcArith.

Definition sample (src dst i : Z) : Z := i * src / dst.

Definition sampling_resize (m : image) (size : Z * Z) (_ : option bool) : result image :=
  let '(h, w) := size in
  if (h <? 0) || (w <? 0) then Raise ValueError
  else Ok (mkImage h w (i_c m)
             (fun i j k => i_at m (sample (i_h m) h i) (sample (i_w m) w j) k)).

Definition sampling_resize2 (m : plane) (size : Z * Z) (_ : option bool) : result plane :=
  let '(h, w) := size in
  if (h <? 0) || (w <? 0) then Raise ValueError
  else Ok (mkPlane h w
             (fun i j => p_at m (sample (p_h m) h i) (sample (p_w m) w j))).

Definition first_channel (m : image) : plane :=
  mkPlane (i_h m) (i_w m) (fun i j => i_at m i j 0).

Definition pointwise (f : Qc -> Qc) (m : image) : image :=
  mkImage (i_h m) (i_w m) (i_c m) (fun i j k => f (i_at m i j k)).

Definition collaborators : Collaborators QcArith := {|
  coeffs_t := list Qc;
  resize := sampling_resize;
  resize2 := sampling_resize2;
  get_depth := fun m => Ok (first_channel m);
  run_pipeline := fun m => Ok (first_channel m, m);
  get_omni_normals := fun m => Ok m;
  harmonize_albedo := fun c _ _ => Ok c;
  uninvert := fun m => Ok (pointwise (fun x => (1 / x - 1)%Qc) m);
  get_light_coeffs := fun _ _ g => Ok ([0; 0; 1; 0]%Qc, g);
  compute_reshading := fun c _ _ _ _ _ _ => Ok c
|}.

#[local] Existing Instance collaborators.

Definition qplane (h w : Z) (v : Qc) : plane := @const_plane QcArith h w v.
Definition qimage (h w c : Z) (v : Qc) : image := @const_image QcArith h w c v.

(** A grey background of 4 rows and 8 columns. *)
Definition bg : image := qimage 4 8 3 (Q2Qc (1 # 2)).

(** A 6 x 6 RGBA foreground, opaque on rows and columns 1 to 3. *)
Definition fg : image :=
  mkImage 6 6 4
    (fun i j k =>
       if k =? 3
       then (if (1 <=? i) && (i <=? 3) && (1 <=? j) && (j <=? 3) then 1%Qc else 0%Qc)
       else Q2Qc (3 # 4)).

(** A 6 x 6 RGBA foreground that is transparent everywhere. *)
Definition fg_transparent : image :=
  mkImage 6 6 4 (fun i j k => if k =? 3 then 0%Qc else Q2Qc (3 # 4)).

(** The alpha channel of an RGBA image, [m[:, :, 3]]. *)
Definition alpha (m : image) : plane :=
  mkPlane (i_h m) (i_w m) (fun i j => i_at m i j 3).

(** A mask of 5 rows and 7 columns with two non-zero entries. *)
Definition mask57 : plane :=
  mkPlane 5 7
    (fun i j =>
       if ((i =? 1) && (j =? 4)) || ((i =? 3) && (j =? 2)) then 1%Qc else 0%Qc).

Definition float_of_ratio (a b : Z) : pyfloat := fdiv (float_of_int a) (float_of_int b).

(** The run configured at the end of the source file. *)
Definition run : result locals :=
  run_full_pipeline bg fg FG_TOP_LEFT_POS FG_RELATIVE_SCALE MAX_EDGE_SIZE.


(** The background resized to a longest edge of 784 pixels. *)
Definition run_784 : result locals :=
  run_full_pipeline bg fg FG_TOP_LEFT_POS (float_of_ratio 1 64) 784.

(** An opaque 50 x 50 RGBA foreground: its bounding box is (0, 49, 0, 49)
    and the crop [[0:49, 0:49]] has 49 rows and 49 columns. *)
Definition fg50 : image := qimage 50 50 4 1%Qc.

(** The configured run on the 50 x 50 foreground. *)
Definition run_crop49 : result locals :=
  run_full_pipeline bg fg50 FG_TOP_LEFT_POS FG_RELATIVE_SCALE MAX_EDGE_SIZE.

(** The 50 x 50 foreground on a canvas of 512 pixels. *)
Definition run_crop49_512 : result locals :=
  run_full_pipeline bg fg50 FG_TOP_LEFT_POS (float_of_ratio 1 64) 512.

(** An RGB foreground without alpha channel. *)
Definition fg_rgb : image := qimage 6 6 3 (Q2Qc (3 # 4)).

(** A 6 x 6 RGBA foreground with the single opaque pixel (2, 2): its
    bounding box is (2, 2, 2, 2). *)
Definition fg_dot : image :=
  mkImage 6 6 4
    (fun i j k =>
       if k =? 3
       then (if (i =? 2) && (j =? 2) then 1%Qc else 0%Qc)
       else Q2Qc (3 # 4)).

(** An image without pixels. *)
Definition bg_empty : image := qimage 0 0 3 0%Qc.


(** A test on the local variables of a run that returned. *)
Definition returned_with (r : result locals) (test : locals -> bool) : bool :=
  match r with
  | Ok l => test l
  | Raise _ => false
  end.

End Demo.

(* ================================================================== *)
(** * Sequencing and inversion of a successful run *)

Lemma bind_ok {A B : Type} (r : result A) (k : A -> result B) (b : B) :
  bind r k = Ok b -> exists a, r = Ok a /\ k a = Ok b.
Proof.
  destruct r as [a | e]; simpl; intros H.
  - exists a. split; [reflexivity | exact H].
  - discriminate H.
Qed.

Lemma is_ok_true {A : Type} (r : result A) :
  is_ok r = true -> exists a, r = Ok a.
Proof.
  destruct r as [a | e]; simpl; intros H; [exists a; reflexivity | discriminate H].
Qed.

(** Peel the statements of a run that returned: every bound call returned
    too, and its value is named. *)
Ltac peel H :=
  repeat match type of H with
         | match ?r with Ok _ => _ | Raise _ => _ end = Ok _ =>
             let E := fresh "E" in
             destruct r eqn:E; [ | discriminate H]
         | match ?p with pair _ _ => _ end = Ok _ =>
             destruct p
         end.

Ltac run_inv H :=
  unfold run_full_pipeline in H;
  cbv beta zeta delta [bind] in H;
  peel H;
  injection H as H; subst.

Section Flow.
Context {A : Arith} {C : Collaborators A}.

Lemma np_zeros_shape (h w : Z) (z : plane) :
  np_zeros h w = Ok z -> p_h z = h /\ p_w z = w /\ 0 <= h /\ 0 <= w.
Proof.
  unfold np_zeros. destruct ((h <? 0) || (w <? 0)) eqn:E; intros H; [discriminate H | ].
  injection H as H. subst z. simpl.
  apply orb_false_iff in E. destruct E as [E1 E2].
  apply Z.ltb_ge in E1. apply Z.ltb_ge in E2. auto.
Qed.

End Flow.


(* ================================================================== *)
(** * The compositor *)

Section Compositor.
Context {A : Arith}.



End Compositor.

(** ** Blending in binary64 *)

Lemma one_is_float_of_1 : float_of_int 1 = Binary64.one.
Proof. vm_compute. reflexivity. Qed.









Section FloatBlend.
Variable pow : pyfloat -> pyfloat -> pyfloat.





End FloatBlend.

(* ================================================================== *)
(** * The bounding box *)

Lemma zrange_In (n i : Z) : In i (zrange n) <-> 0 <= i < n.
Proof.
  unfold zrange. rewrite in_map_iff. split.
  - intros [k [Hk Hin]]. apply in_seq in Hin. lia.
  - intros H. exists (Z.to_nat i). split; [lia | ]. apply in_seq. lia.
Qed.

Lemma range_sorted (n a : nat) :
  StronglySorted Z.lt (map Z.of_nat (seq a n)).
Proof.
  revert a. induction n as [ | n IH]; intros a; simpl.
  - constructor.
  - constructor; [apply IH | ].
    apply Forall_forall. intros x Hx.
    apply in_map_iff in Hx. destruct Hx as [k [Hk Hin]].
    apply in_seq in Hin. lia.
Qed.

Lemma zrange_sorted (n : Z) : StronglySorted Z.lt (zrange n).
Proof. apply range_sorted. Qed.

(** On an increasing list, the first element kept by a filter is the least
    element that passes the test. *)
Lemma filter_first_least (f : Z -> bool) (l : list Z) (r : Z) (rest : list Z) :
  StronglySorted Z.lt l ->
  filter f l = r :: rest ->
  f r = true /\ In r l /\ forall x, In x l -> f x = true -> r <= x.
Proof.
  intros Hs. induction Hs as [ | a l Hs IH Hall]; simpl; intros Hf.
  - discriminate Hf.
  - rewrite Forall_forall in Hall.
    destruct (f a) eqn:Fa.
    + injection Hf as Hr _. subst r.
      split; [exact Fa | ]. split; [left; reflexivity | ].
      intros x [Hx | Hx] _; [lia | ]. specialize (Hall x Hx). lia.
    + destruct (IH Hf) as [Fr [Hin Hmin]].
      split; [exact Fr | ]. split; [right; exact Hin | ].
      intros x [Hx | Hx] Fx; [congruence | ]. apply Hmin; assumption.
Qed.

(** ... and the last element kept is the greatest one that passes. *)
Lemma filter_last_greatest (f : Z -> bool) (l : list Z) (d : Z) :
  StronglySorted Z.lt l ->
  filter f l <> [] ->
  f (last (filter f l) d) = true
  /\ In (last (filter f l) d) l
  /\ forall x, In x l -> f x = true -> x <= last (filter f l) d.
Proof.
  intros Hs. induction Hs as [ | a l Hs IH Hall]; simpl; intros Hne.
  - contradiction.
  - rewrite Forall_forall in Hall.
    destruct (f a) eqn:Fa.
    + destruct (filter f l) as [ | b rest] eqn:Fl.
      * simpl. split; [exact Fa | ]. split; [left; reflexivity | ].
        intros x [Hx | Hx] Fx; [lia | ].
        assert (Hin : In x (filter f l)) by (apply filter_In; auto).
        rewrite Fl in Hin. contradiction.
      * assert (Hne' : b :: rest <> []) by discriminate.
        destruct (IH Hne') as [Fm [Hin Hmax]].
        change (last (a :: b :: rest) d) with (last (b :: rest) d).
        split; [exact Fm | ]. split; [right; exact Hin | ].
        intros x [Hx | Hx] Fx; [ | apply Hmax; assumption].
        subst x. specialize (Hall _ Hin). lia.
    + destruct (IH Hne) as [Fm [Hin Hmax]].
      split; [exact Fm | ]. split; [right; exact Hin | ].
      intros x [Hx | Hx] Fx; [congruence | ]. apply Hmax; assumption.
Qed.

Section BBox.
Context {A : Arith}.

Lemma row_any_iff (mask : plane) (i : Z) :
  row_any mask i = true
  <-> exists j, 0 <= j < p_w mask /\ truthy (p_at mask i j) = true.
Proof.
  unfold row_any. rewrite existsb_exists. split.
  - intros [j [Hin Ht]]. apply zrange_In in Hin. exists j. auto.
  - intros [j [Hj Ht]]. exists j. split; [apply zrange_In; exact Hj | exact Ht].
Qed.

Lemma col_any_iff (mask : plane) (j : Z) :
  col_any mask j = true
  <-> exists i, 0 <= i < p_h mask /\ truthy (p_at mask i j) = true.
Proof.
  unfold col_any. rewrite existsb_exists. split.
  - intros [i [Hin Ht]]. apply zrange_In in Hin. exists i. auto.
  - intros [i [Hi Ht]]. exists i. split; [apply zrange_In; exact Hi | exact Ht].
Qed.

Lemma get_bbox_zero (mask : plane) :
  entirely_zero mask -> get_bbox mask = Raise DegenerateMask.
Proof.
  intros Hz. unfold get_bbox.
  destruct (filter (row_any mask) (zrange (p_h mask))) as [ | r rows] eqn:Fr;
    [reflexivity | ].
  exfalso.
  assert (Hin : In r (filter (row_any mask) (zrange (p_h mask))))
    by (rewrite Fr; left; reflexivity).
  apply filter_In in Hin. destruct Hin as [Hr Hany].
  apply zrange_In in Hr. apply row_any_iff in Hany.
  destruct Hany as [j [Hj Ht]].
  rewrite (Hz r j Hr Hj) in Ht. discriminate Ht.
Qed.

Lemma get_bbox_nonzero (mask : plane) (i0 j0 : Z) :
  nonzero_at mask i0 j0 ->
  exists r0 r1 c0 c1,
    get_bbox mask = Ok (r0, r1, c0, c1)
    /\ (0 <= r0 <= r1 /\ r1 < p_h mask)
    /\ (0 <= c0 <= c1 /\ c1 < p_w mask)
    /\ encloses mask r0 r1 c0 c1
    /\ (forall a b c d, encloses mask a b c d ->
                        a <= r0 /\ r1 <= b /\ c <= c0 /\ c1 <= d).
Proof.
  intros [Hi0 [Hj0 Ht0]]. unfold get_bbox.
  assert (Hrow0 : In i0 (filter (row_any mask) (zrange (p_h mask)))).
  { apply filter_In. split; [apply zrange_In; exact Hi0 | ].
    apply row_any_iff. exists j0. auto. }
  assert (Hcol0 : In j0 (filter (col_any mask) (zrange (p_w mask)))).
  { apply filter_In. split; [apply zrange_In; exact Hj0 | ].
    apply col_any_iff. exists i0. auto. }
  destruct (filter (row_any mask) (zrange (p_h mask))) as [ | r rows] eqn:Fr;
    [contradiction | ].
  destruct (filter (col_any mask) (zrange (p_w mask))) as [ | c cols] eqn:Fc;
    [contradiction | ].
  destruct (filter_first_least _ _ _ _ (zrange_sorted _) Fr) as [Rf [Rin Rmin]].
  destruct (filter_first_least _ _ _ _ (zrange_sorted _) Fc) as [Cf [Cin Cmin]].
  assert (Rne : filter (row_any mask) (zrange (p_h mask)) <> [])
    by (rewrite Fr; discriminate).
  assert (Cne : filter (col_any mask) (zrange (p_w mask)) <> [])
    by (rewrite Fc; discriminate).
  destruct (filter_last_greatest _ _ r (zrange_sorted _) Rne) as [Rl [Rlin Rmax]].
  destruct (filter_last_greatest _ _ c (zrange_sorted _) Cne) as [Cl [Clin Cmax]].
  rewrite Fr in Rl, Rlin, Rmax. rewrite Fc in Cl, Clin, Cmax.
  set (r1 := last (r :: rows) r) in *. set (c1 := last (c :: cols) c) in *.
  apply zrange_In in Rin, Cin, Rlin, Clin.
  exists r, r1, c, c1.
  split; [reflexivity | ].
  assert (Hr : r <= r1) by (apply Rmax; [apply zrange_In; exact Rin | exact Rf]).
  assert (Hc : c <= c1) by (apply Cmax; [apply zrange_In; exact Cin | exact Cf]).
  split; [lia | ]. split; [lia | ].
  split.
  - intros i j [Hi [Hj Ht]].
    assert (Ri : row_any mask i = true) by (apply row_any_iff; exists j; auto).
    assert (Cj : col_any mask j = true) by (apply col_any_iff; exists i; auto).
    apply zrange_In in Hi, Hj.
    pose proof (Rmin i Hi Ri). pose proof (Rmax i Hi Ri).
    pose proof (Cmin j Hj Cj). pose proof (Cmax j Hj Cj). lia.
  - intros a b c' d Henc.
    apply row_any_iff in Rf, Rl. apply col_any_iff in Cf, Cl.
    destruct Rf as [j1 [Hj1 T1]]. destruct Rl as [j2 [Hj2 T2]].
    destruct Cf as [i3 [Hi3 T3]]. destruct Cl as [i4 [Hi4 T4]].
    pose proof (Henc r j1 (conj Rin (conj Hj1 T1))).
    pose proof (Henc r1 j2 (conj Rlin (conj Hj2 T2))).
    pose proof (Henc i3 c (conj Hi3 (conj Cin T3))).
    pose proof (Henc i4 c1 (conj Hi4 (conj Clin T4))).
    lia.
Qed.

End BBox.

(** C4: on a mask that is entirely zero the bounding-box extraction reports
    [DegenerateMask], and a run whose foreground has such an alpha channel
    never returns; on a mask with a non-zero entry it returns the least
    rectangle (bounds included) that contains every non-zero entry. *)
Theorem get_bbox_tight
    {A : Arith} {C : Collaborators A} (mask : plane) :
  (entirely_zero mask -> get_bbox mask = Raise DegenerateMask)
  /\ (entirely_zero mask ->
      forall bg_im_original fg_im_transparent pos rel max_edge_size,
        chan fg_im_transparent 3 = Ok mask ->
        is_ok (run_full_pipeline bg_im_original fg_im_transparent
                 pos rel max_edge_size) = false)
  /\ (forall i0 j0,
        nonzero_at mask i0 j0 ->
        exists r0 r1 c0 c1,
          get_bbox mask = Ok (r0, r1, c0, c1)
          /\ (0 <= r0 <= r1 /\ r1 < p_h mask)
          /\ (0 <= c0 <= c1 /\ c1 < p_w mask)
          /\ encloses mask r0 r1 c0 c1
          /\ (forall a b c d, encloses mask a b c d ->
                              a <= r0 /\ r1 <= b /\ c <= c0 /\ c1 <= d)).
Proof.
  split; [apply get_bbox_zero | ].
  split; [ | apply get_bbox_nonzero].
  intros Hz bg fg pos rel mes Hchan.
  destruct (run_full_pipeline bg fg pos rel mes) as [l | e] eqn:H; [ | reflexivity].
  exfalso. run_inv H.
  match goal with
  | E1 : chan fg 3 = Ok ?m, E2 : get_bbox ?m = Ok _ |- _ =>
      assert (m = mask) by congruence; subst m;
      rewrite (get_bbox_zero mask Hz) in E2; discriminate E2
  end.
Qed.

(* ================================================================== *)
(** * The resizing arithmetic *)

Lemma rescaled_shape_ok (target h w nh nw : Z) :
  rescaled_shape target h w = Ok (nh, nw) ->
  exists scale,
    truediv target (Z.max h w) = Ok scale
    /\ int_scaled h scale = Ok nh
    /\ int_scaled w scale = Ok nw.
Proof.
  unfold rescaled_shape. intros H.
  apply bind_ok in H. destruct H as [scale [Hs H]].
  apply bind_ok in H. destruct H as [a [Ha H]].
  apply bind_ok in H. destruct H as [b [Hb H]].
  injection H as H1 H2. subst a b.
  exists scale. auto.
Qed.

Lemma rescaled_shape_nonzero (target h w : Z) (r : Z * Z) :
  rescaled_shape target h w = Ok r -> Z.max h w <> 0.
Proof.
  destruct r as [nh nw]. intros H.
  apply rescaled_shape_ok in H. destruct H as [scale [Hs _]].
  unfold truediv in Hs.
  destruct (Z.max h w =? 0) eqn:E; [discriminate Hs | ].
  apply Z.eqb_neq in E. exact E.
Qed.

Lemma long_side_ok_spec (target m a b : Z) :
  long_side_ok target m = true ->
  rescaled_shape target m m = Ok (a, b) ->
  a = target \/ a = target - 1.
Proof.
  unfold long_side_ok. intros H E. rewrite E in H.
  apply orb_true_iff in H. destruct H as [H | H]; apply Z.eqb_eq in H; auto.
Qed.

(** Along the longer axis the new extent is what a square of that side
    gets. *)
Lemma rescaled_long_side (target h w nh nw : Z) :
  long_side_ok target (Z.max h w) = true ->
  rescaled_shape target h w = Ok (nh, nw) ->
  (w <= h -> nh = target \/ nh = target - 1)
  /\ (h <= w -> nw = target \/ nw = target - 1).
Proof.
  intros Hok H.
  apply rescaled_shape_ok in H. destruct H as [scale [Hs [Hh Hw]]].
  split; intros Hle.
  - replace (Z.max h w) with h in * by lia.
    apply (long_side_ok_spec target h nh nh Hok).
    unfold rescaled_shape. rewrite Z.max_id, Hs. simpl. rewrite Hh. reflexivity.
  - replace (Z.max h w) with w in * by lia.
    apply (long_side_ok_spec target w nw nw Hok).
    unfold rescaled_shape. rewrite Z.max_id, Hs. simpl. rewrite Hw. reflexivity.
Qed.

Lemma sides_In (n : nat) (m : Z) :
  1 <= m <= Z.of_nat n -> In m (sides n).
Proof.
  intros H. unfold sides. apply in_map_iff.
  exists (Z.to_nat m). split; [lia | ]. apply in_seq. lia.
Qed.

Lemma long_side_1024 :
  forallb (long_side_ok 1024) (sides (Z.to_nat max_side)) = true.
Proof. vm_cast_no_check (eq_refl true). Qed.

Lemma long_side_512 :
  forallb (long_side_ok 512) (sides (Z.to_nat max_side)) = true.
Proof. vm_cast_no_check (eq_refl true). Qed.

Lemma long_side_checked (target : Z) (m : Z) :
  forallb (long_side_ok target) (sides (Z.to_nat max_side)) = true ->
  1 <= m <= max_side -> long_side_ok target m = true.
Proof.
  intros H Hm. rewrite forallb_forall in H. apply H.
  apply sides_In. rewrite Z2Nat.id; [exact Hm | unfold max_side; lia].
Qed.

(* ================================================================== *)
(** * The compositing stage of a run *)

(** C2: in a run that returns, the four composites (colour, depth, inverse
    shading, normals) are built at the one placement [(top, left)], computed
    once from the relative position and the canvas size, and with the one
    rescaled foreground mask; when the collaborators honour their interface
    contracts, every composite has the spatial size of the background canvas
    [(bg_height, bg_width)]. *)
Theorem composites_share_placement
    {A : Arith} {C : Collaborators A} (SC : ShapeContracts C)
    (bg_im_original fg_im_transparent : image)
    (pos : pyfloat * pyfloat) (rel : pyfloat) (max_edge_size : Z) (l : locals) :
  run_full_pipeline bg_im_original fg_im_transparent pos rel max_edge_size = Ok l ->
  (int_scaled (bg_height l) (fst pos) = Ok (top l)
   /\ int_scaled (bg_width l) (snd pos) = Ok (left l)
   /\ resize2 (fg_mask_crop l) (fg_scaled_height l, fg_scaled_width l) (Some true)
      = Ok (fg_mask_rescaled l))
  /\ (comp l
      = composite_crop (bg_im l) (top l, left l)
          (fg_im_rescaled l) (fg_mask_rescaled l)
      /\ comp_depth l
         = composite_depth (im_depth l) (top l, left l)
             (fg_depth_rescaled l) (fg_mask_rescaled l)
      /\ comp_inv_shading l
         = composite_crop (im_inv_shading l) (top l, left l)
             (fg_inv_shading_rescaled l) (fg_mask_rescaled l)
      /\ comp_normals l
         = composite_crop (im_normals l) (top l, left l)
             (fg_normals_rescaled l) (fg_mask_rescaled l))
  /\ (image_shape (comp l) = (bg_height l, bg_width l)
      /\ plane_shape (comp_depth l) = (bg_height l, bg_width l)
      /\ image_shape (comp_inv_shading l) = (bg_height l, bg_width l)
      /\ image_shape (comp_normals l) = (bg_height l, bg_width l)).
Proof.
  intros H. run_inv H. simpl.
  repeat match goal with
         | E : resize _ (_, _) _ = Ok _ |- _ => apply resize_shape in E
         | E : get_depth _ = Ok _ |- _ => apply get_depth_shape in E
         | E : run_pipeline _ = Ok (_, _) |- _ => apply run_pipeline_shape in E
         | E : get_omni_normals _ = Ok _ |- _ => apply get_omni_normals_shape in E
         end.
  unfold image_shape, plane_shape. simpl in *.
  repeat split; try assumption; try reflexivity; f_equal; intuition congruence.
Qed.

Section CropFacts.
Context {A : Arith}.

Lemma slice_len_nonneg (a b : Z) : 0 <= slice_len a b.
Proof. unfold slice_len. lia. Qed.

Lemma crop_shapes_agree (m : image) (k0 k1 : Z) (p : plane) (r0 r1 c0 c1 : Z) (k : Z) :
  chan m k = Ok p ->
  plane_shape (crop_plane p r0 r1 c0 c1)
  = image_shape (crop_image (chans m k0 k1) r0 r1 c0 c1).
Proof.
  unfold chan. destruct (_ && _); intros H; [ | discriminate H].
  injection H as H. subst p. reflexivity.
Qed.

End CropFacts.


(** C5 (amended): when the pipeline is given the configured target
    [MAX_EDGE_SIZE], the cropped image and mask are both resized to
    [(int(H*s), int(W*s))] with [s = target / max(H, W)], every operation
    being a binary64 one followed by truncation.  Along the longer axis of
    the crop (up to [max_side] pixels) the new extent is the target or one
    less; a square crop stays square; and the same arithmetic with target 100
    maps 200 x 400 to (50, 100). *)
Theorem crop_rescale_dims
    {A : Arith} {C : Collaborators A} (SC : ShapeContracts C)
    (bg_im_original fg_im_transparent : image)
    (pos : pyfloat * pyfloat) (rel : pyfloat) (max_edge_size : Z) (l : locals) :
  max_edge_size = MAX_EDGE_SIZE ->
  run_full_pipeline bg_im_original fg_im_transparent pos rel max_edge_size = Ok l ->
  (exists fg_mask bb0 bb1 bb2 bb3 scale,
      chan fg_im_transparent 3 = Ok fg_mask
      /\ get_bbox fg_mask = Ok (bb0, bb1, bb2, bb3)
      /\ let crop := crop_image (chans fg_im_transparent 0 3) bb0 bb1 bb2 bb3 in
         let H := i_h crop in
         let W := i_w crop in
         plane_shape (crop_plane fg_mask bb0 bb1 bb2 bb3) = (H, W)
         /\ truediv max_edge_size (Z.max H W) = Ok scale
         /\ int_scaled H scale = Ok (cropped_height l)
         /\ int_scaled W scale = Ok (cropped_width l)
         /\ image_shape (fg_im_crop l) = (cropped_height l, cropped_width l)
         /\ plane_shape (fg_mask_crop l) = (cropped_height l, cropped_width l)
         /\ (Z.max H W <= max_side ->
             (W <= H -> cropped_height l = max_edge_size
                        \/ cropped_height l = max_edge_size - 1)
             /\ (H <= W -> cropped_width l = max_edge_size
                           \/ cropped_width l = max_edge_size - 1))
         /\ (H = W -> cropped_height l = cropped_width l))
  /\ rescaled_shape 100 200 400 = Ok (50, 100).
Proof.
  intros Hmes H. subst max_edge_size.
  split; [ | vm_compute; reflexivity].
  run_inv H.
  cbn [cropped_height cropped_width fg_im_crop fg_mask_crop].
  match goal with
  | E : rescaled_shape MAX_EDGE_SIZE (i_h ?crop) (i_w ?crop) = Ok (?a, ?b) |- _ =>
      pose proof (rescaled_shape_nonzero _ _ _ _ E) as Hnz;
      pose proof (fun K => rescaled_long_side MAX_EDGE_SIZE _ _ a b K E) as Hlong;
      destruct (rescaled_shape_ok _ _ _ _ _ E) as [scale [Hs [Hh Hw]]];
      assert (Hext : 0 <= i_h crop /\ 0 <= i_w crop)
        by (split; apply slice_len_nonneg)
  end.
  repeat match goal with
         | E : resize _ (_, _) None = Ok _ |- _ => apply resize_shape in E
         | E : resize2 _ (_, _) None = Ok _ |- _ => apply resize2_shape in E
         end.
  do 5 eexists. exists scale.
  split; [reflexivity | ]. split; [eassumption | ].
  cbv zeta.
  split; [match goal with
          | E : chan _ 3 = Ok _ |- _ => exact (crop_shapes_agree _ _ _ _ _ _ _ _ _ E)
          end | ].
  split; [exact Hs | ]. split; [exact Hh | ]. split; [exact Hw | ].
  split; [unfold image_shape; f_equal; intuition congruence | ].
  split; [unfold plane_shape; f_equal; intuition congruence | ].
  split.
  - intros Hmax. apply Hlong.
    apply long_side_checked; [exact long_side_1024 | ]. lia.
  - intros Heq. rewrite Heq in Hh. congruence.
Qed.

(** C6 (amended): before the light coefficients are fitted, the background
    image and its inverse shading are resized with [anti_aliasing=True] to
    the one size [(int(bg_height*s), int(bg_width*s))], [s = 512.0 / max_dim];
    the normals are estimated from the small image; [get_light_coeffs]
    receives exactly these three buffers, which have that one size when the
    collaborators honour their interface contracts.  Along the longer axis of
    the canvas (up to [max_side] pixels) the small extent is 512 or 511. *)
Theorem light_fit_inputs
    {A : Arith} {C : Collaborators A} (SC : ShapeContracts C)
    (bg_im_original fg_im_transparent : image)
    (pos : pyfloat * pyfloat) (rel : pyfloat) (max_edge_size : Z) (l : locals) :
  run_full_pipeline bg_im_original fg_im_transparent pos rel max_edge_size = Ok l ->
  (exists scale,
      truediv 512 (Z.max (bg_height l) (bg_width l)) = Ok scale
      /\ int_scaled (bg_height l) scale = Ok (small_height l)
      /\ int_scaled (bg_width l) scale = Ok (small_width l))
  /\ resize (bg_im l) (small_height l, small_width l) (Some true)
     = Ok (small_bg_im l)
  /\ resize (im_inv_shading l) (small_height l, small_width l) (Some true)
     = Ok (small_bg_inv_shading l)
  /\ get_omni_normals (small_bg_im l) = Ok (small_bg_normals l)
  /\ (exists shading0,
        chan (small_bg_inv_shading l) 0 = Ok shading0
        /\ get_light_coeffs shading0 (small_bg_normals l) (small_bg_im l)
           = Ok (coeffs l, light_vis l)
        /\ plane_shape shading0 = (small_height l, small_width l))
  /\ image_shape (small_bg_im l) = (small_height l, small_width l)
  /\ image_shape (small_bg_inv_shading l) = (small_height l, small_width l)
  /\ image_shape (small_bg_normals l) = (small_height l, small_width l)
  /\ (Z.max (bg_height l) (bg_width l) <= max_side ->
      (bg_width l <= bg_height l -> small_height l = 512 \/ small_height l = 511)
      /\ (bg_height l <= bg_width l -> small_width l = 512 \/ small_width l = 511)).
Proof.
  intros H. run_inv H.
  cbn [bg_height bg_width bg_im im_inv_shading small_height small_width
       small_bg_im small_bg_normals small_bg_inv_shading coeffs light_vis].
  match goal with
  | E : rescaled_shape 512 ?h ?w = Ok (?a, ?b) |- _ =>
      pose proof (rescaled_shape_nonzero _ _ _ _ E) as Hnz;
      pose proof (fun K => rescaled_long_side 512 _ _ a b K E) as Hlong;
      destruct (rescaled_shape_ok _ _ _ _ _ E) as [scale [Hs [Hh Hw]]]
  end.
  match goal with
  | E : np_zeros _ _ = Ok _ |- _ =>
      destruct (np_zeros_shape _ _ _ E) as [_ [_ [Hh0 Hw0]]]
  end.
  match goal with
  | E : chan ?m 0 = Ok ?p |- _ =>
      assert (Hp : p_h p = i_h m /\ p_w p = i_w m)
        by (revert E; unfold chan; destruct (_ && _); intros E;
            [injection E as E; subst p; simpl; auto | discriminate E])
  end.
  repeat match goal with
         | E : resize _ (_, _) (Some true) = Ok _ |- _ =>
             pose proof (resize_shape _ _ _ _ _ E); revert E
         | E : get_omni_normals _ = Ok _ |- _ =>
             pose proof (get_omni_normals_shape _ _ E); revert E
         end.
  intros.
  split; [exists scale; auto | ].
  repeat (split; [assumption | ]).
  split; [eexists; split; [eassumption | split; [assumption | ] ];
          unfold plane_shape; f_equal; intuition congruence | ].
  split; [unfold image_shape; f_equal; intuition congruence | ].
  split; [unfold image_shape; f_equal; intuition congruence | ].
  split; [unfold image_shape; f_equal; intuition congruence | ].
  intros Hmax. apply Hlong.
  apply long_side_checked; [exact long_side_512 | ]. lia.
Qed.
(** C7: in a run that returns, the harmonized albedo is the output of the
    external harmonizer (called on the composite, the full-canvas mask and
    the composite inverse shading) raised element by element to the power
    2.2, and the harmonized composite is that albedo multiplied element by
    element with [uninvert] of the composite inverse shading. *)
Theorem harmonized_composite_flow
    {A : Arith} {C : Collaborators A}
    (bg_im_original fg_im_transparent : image)
    (pos : pyfloat * pyfloat) (rel : pyfloat) (max_edge_size : Z) (l : locals) :
  run_full_pipeline bg_im_original fg_im_transparent pos rel max_edge_size = Ok l ->
  harmonize_albedo (comp l) (fg_full_mask l) (comp_inv_shading l)
    = Ok (harmonizer_output l)
  /\ comp_albedo_harmonized l = image_pow (harmonizer_output l) gamma
  /\ gamma = S754_finite false 4953959590107546 (-51)
  /\ (forall i j k,
        i_at (comp_albedo_harmonized l) i j k
        = vpow (i_at (harmonizer_output l) i j k) gamma)
  /\ exists shading,
       uninvert (comp_inv_shading l) = Ok shading
       /\ elementwise vmul (comp_albedo_harmonized l) shading = Ok (comp_harmonized l)
       /\ forall i j k,
            i_at (comp_harmonized l) i j k
            = vmul (i_at (comp_albedo_harmonized l)
                      (pick (i_h (comp_albedo_harmonized l)) i)
                      (pick (i_w (comp_albedo_harmonized l)) j)
                      (pick (i_c (comp_albedo_harmonized l)) k))
                   (i_at shading (pick (i_h shading) i) (pick (i_w shading) j)
                      (pick (i_c shading) k)).
Proof.
  intros H. run_inv H. simpl.
  repeat split; try assumption; try reflexivity.
  eexists. split; [eassumption | ]. split; [assumption | ].
  match goal with
  | E : elementwise vmul ?x ?y = Ok ?r |- _ =>
      unfold elementwise in E;
      destruct (common (i_h x) (i_h y)); try discriminate E;
      destruct (common (i_w x) (i_w y)); try discriminate E;
      destruct (common (i_c x) (i_c y)); try discriminate E;
      injection E as E; subst r
  end.
  reflexivity.
Qed.

(* ================================================================== *)
(** * Writing the patch into the canvas *)

Lemma returned_with_true (r : result locals) (test : locals -> bool) :
  Demo.returned_with r test = true -> exists l, r = Ok l /\ test l = true.
Proof.
  destruct r as [l | e]; simpl; intros H; [ | discriminate H].
  exists l. auto.
Qed.

Section Placement.
Context {A : Arith}.


Lemma adjust_index_nonneg (len i : Z) : 0 <= len -> 0 <= i -> adjust_index len i = Z.min i len.
Proof.
  intros Hl H. unfold adjust_index.
  destruct (i <? 0) eqn:E; [apply Z.ltb_lt in E; lia | reflexivity].
Qed.

Lemma fits_iff (src dst : Z) : fits src dst = true <-> src = dst \/ src = 1.
Proof. unfold fits. rewrite orb_true_iff, !Z.eqb_eq. tauto. Qed.

(** A patch of two or more rows (columns) fits the clamped slice only when
    the slice was not cut. *)
Lemma fits_clamped (len start h : Z) :
  0 <= len -> 0 <= start -> 1 < h ->
  fits h (slice_len (adjust_index len start) (adjust_index len (start + h))) = true ->
  start + h <= len.
Proof.
  intros Hl Hs Hh Hf. apply fits_iff in Hf.
  rewrite !adjust_index_nonneg in Hf by lia.
  unfold slice_len in Hf. lia.
Qed.






End Placement.

(** C10 (amended): the scale of the foreground crop is
    [MAX_EDGE_SIZE / max_dim] with the module constant 1024, whatever
    [max_edge_size] the call received: two runs that differ only in
    [max_edge_size] rescale the crop to the same size, while the background
    is resized with [max_edge_size].  The extents are the truncated binary64
    products; along the longer axis of the crop (up to [max_side] pixels) the
    new extent is 1024 or 1023. *)
Theorem fg_scale_uses_constant
    {A : Arith} {C : Collaborators A}
    (bg_im_original fg_im_transparent : image)
    (pos : pyfloat * pyfloat) (rel : pyfloat) (max_edge_size : Z) (l : locals) :
  run_full_pipeline bg_im_original fg_im_transparent pos rel max_edge_size = Ok l ->
  MAX_EDGE_SIZE = 1024
  /\ (exists fg_mask bb0 bb1 bb2 bb3 fg_scale,
        chan fg_im_transparent 3 = Ok fg_mask
        /\ get_bbox fg_mask = Ok (bb0, bb1, bb2, bb3)
        /\ let crop := crop_image (chans fg_im_transparent 0 3) bb0 bb1 bb2 bb3 in
           truediv MAX_EDGE_SIZE (Z.max (i_h crop) (i_w crop)) = Ok fg_scale
           /\ int_scaled (i_h crop) fg_scale = Ok (cropped_height l)
           /\ int_scaled (i_w crop) fg_scale = Ok (cropped_width l)
           /\ (Z.max (i_h crop) (i_w crop) <= max_side ->
               (i_w crop <= i_h crop ->
                cropped_height l = 1024 \/ cropped_height l = 1023)
               /\ (i_h crop <= i_w crop ->
                   cropped_width l = 1024 \/ cropped_width l = 1023)))
  /\ (forall max_edge_size' l',
        run_full_pipeline bg_im_original fg_im_transparent pos rel max_edge_size'
        = Ok l' ->
        cropped_height l' = cropped_height l /\ cropped_width l' = cropped_width l)
  /\ rescaled_shape max_edge_size (i_h bg_im_original) (i_w bg_im_original)
     = Ok (bg_height l, bg_width l).
Proof.
  intros H. split; [reflexivity | ]. split; [ | split].
  - run_inv H. cbn [cropped_height cropped_width].
    match goal with
    | E : rescaled_shape MAX_EDGE_SIZE (i_h ?crop) (i_w ?crop) = Ok (?a, ?b) |- _ =>
        pose proof (rescaled_shape_nonzero _ _ _ _ E) as Hnz;
        pose proof (fun K => rescaled_long_side MAX_EDGE_SIZE _ _ a b K E) as Hlong;
        destruct (rescaled_shape_ok _ _ _ _ _ E) as [scale [Hs [Hh Hw]]];
        assert (Hext : 0 <= i_h crop /\ 0 <= i_w crop)
          by (split; apply slice_len_nonneg)
    end.
    do 5 eexists. exists scale.
    split; [reflexivity | ]. split; [eassumption | ].
    cbv zeta. split; [exact Hs | ]. split; [exact Hh | ]. split; [exact Hw | ].
    intros Hmax. apply Hlong.
    apply long_side_checked; [exact long_side_1024 | ]. lia.
  - intros mes' l' H'. run_inv H. run_inv H'. simpl. split; congruence.
  - run_inv H. reflexivity.
Qed.

(* ================================================================== *)
(** * The deterministic instance satisfies the assumptions *)

Lemma demo_contracts : ShapeContracts Demo.collaborators.
Proof.
  split; cbn.
  - intros m h w aa r. unfold Demo.sampling_resize.
    destruct ((h <? 0) || (w <? 0)); intros H; [discriminate H | ].
    injection H as H. subst r. simpl. auto.
  - intros m h w aa r. unfold Demo.sampling_resize2.
    destruct ((h <? 0) || (w <? 0)); intros H; [discriminate H | ].
    injection H as H. subst r. simpl. auto.
  - intros m d H. injection H as H. subst d. simpl. auto.
  - intros m s a H. injection H as H1 H2. subst s a. simpl. auto.
  - intros m n H. injection H as H. subst n. auto.
Qed.

Lemma demo_run_returns : is_ok Demo.run = true.
Proof. vm_compute. reflexivity. Qed.

(* ================================================================== *)
(** * Evaluation on the deterministic instance *)

Section Evaluation.

#[local] Existing Instance Demo.QcArith.
#[local] Existing Instance Demo.collaborators.





(** The bounding box of a mask with entries at (1, 4) and (3, 2), and the
    run on a fully transparent foreground. *)
Lemma get_bbox_tight_witness :
  (nonzero_at Demo.mask57 1 4
   /\ exists r0 r1 c0 c1,
        get_bbox Demo.mask57 = Ok (r0, r1, c0, c1)
        /\ (0 <= r0 <= r1 /\ r1 < 5)
        /\ (0 <= c0 <= c1 /\ c1 < 7)
        /\ encloses Demo.mask57 r0 r1 c0 c1)
  /\ (entirely_zero (Demo.alpha Demo.fg_transparent)
      /\ is_ok (run_full_pipeline Demo.bg Demo.fg_transparent
                  FG_TOP_LEFT_POS FG_RELATIVE_SCALE MAX_EDGE_SIZE) = false).
Proof.
  split.
  - assert (H : nonzero_at Demo.mask57 1 4).
    { repeat split; simpl; try lia. }
    split; [exact H | ].
    destruct (proj2 (proj2 (@get_bbox_tight Demo.QcArith Demo.collaborators
                              Demo.mask57)) 1 4 H)
      as [r0 [r1 [c0 [c1 [Hb [Hr [Hc [He _]]]]]]]].
    exists r0, r1, c0, c1. auto.
  - assert (H : entirely_zero (Demo.alpha Demo.fg_transparent)).
    { intros i j _ _. reflexivity. }
    split; [exact H | ].
    apply (proj1 (proj2 (@get_bbox_tight Demo.QcArith Demo.collaborators
                           (Demo.alpha Demo.fg_transparent)))
             H Demo.bg Demo.fg_transparent).
    reflexivity.
Defined.

(** The configured run: composites at one placement, of the canvas size. *)
Lemma composites_share_placement_witness :
  exists l,
    Demo.run = Ok l
    /\ comp_depth l
       = composite_depth (im_depth l) (top l, left l)
           (fg_depth_rescaled l) (fg_mask_rescaled l)
    /\ image_shape (comp l) = (bg_height l, bg_width l)
    /\ plane_shape (comp_depth l) = (bg_height l, bg_width l).
Proof.
  destruct (is_ok_true Demo.run demo_run_returns) as [l Hl].
  exists l. split; [exact Hl | ].
  destruct (@composites_share_placement _ _ demo_contracts _ _ _ _ _ l Hl)
    as [_ [[_ [Hd _]] [Hs [Hsd _]]]].
  auto.
Defined.

(** The configured run: image and mask crop resized to one size. *)
Lemma crop_rescale_dims_witness :
  exists l,
    Demo.run = Ok l
    /\ image_shape (fg_im_crop l) = (cropped_height l, cropped_width l)
    /\ plane_shape (fg_mask_crop l) = (cropped_height l, cropped_width l)
    /\ rescaled_shape 100 200 400 = Ok (50, 100).
Proof.
  destruct (is_ok_true Demo.run demo_run_returns) as [l Hl].
  exists l. split; [exact Hl | ].
  destruct (@crop_rescale_dims _ _ demo_contracts _ _ _ _ MAX_EDGE_SIZE l
              eq_refl Hl)
    as [[m [b0 [b1 [b2 [b3 [s [_ [_ [_ [_ [_ [_ [Hi [Hp _]]]]]]]]]]]]]] Hex].
  auto.
Defined.

(** The configured run: three small buffers of one size. *)
Lemma light_fit_inputs_witness :
  exists l,
    Demo.run = Ok l
    /\ image_shape (small_bg_im l) = (small_height l, small_width l)
    /\ image_shape (small_bg_inv_shading l) = (small_height l, small_width l)
    /\ image_shape (small_bg_normals l) = (small_height l, small_width l).
Proof.
  destruct (is_ok_true Demo.run demo_run_returns) as [l Hl].
  exists l. split; [exact Hl | ].
  destruct (@light_fit_inputs _ _ demo_contracts _ _ _ _ _ l Hl)
    as [_ [_ [_ [_ [_ [H1 [H2 [H3 _]]]]]]]].
  auto.
Defined.

(** The configured run: harmonizer output raised to 2.2. *)
Lemma harmonized_composite_flow_witness :
  exists l,
    Demo.run = Ok l
    /\ harmonize_albedo (comp l) (fg_full_mask l) (comp_inv_shading l)
       = Ok (harmonizer_output l)
    /\ comp_albedo_harmonized l = image_pow (harmonizer_output l) gamma.
Proof.
  destruct (is_ok_true Demo.run demo_run_returns) as [l Hl].
  exists l. split; [exact Hl | ].
  destruct (@harmonized_composite_flow _ _ _ _ _ _ _ l Hl) as [H1 [H2 _]].
  auto.
Defined.


(** The configured run: the crop size does not follow [max_edge_size]. *)
Lemma fg_scale_uses_constant_witness :
  exists l,
    Demo.run = Ok l
    /\ forall max_edge_size' l',
         run_full_pipeline Demo.bg Demo.fg FG_TOP_LEFT_POS FG_RELATIVE_SCALE
           max_edge_size' = Ok l' ->
         cropped_height l' = cropped_height l /\ cropped_width l' = cropped_width l.
Proof.
  destruct (is_ok_true Demo.run demo_run_returns) as [l Hl].
  exists l. split; [exact Hl | ].
  destruct (@fg_scale_uses_constant _ _ _ _ _ _ _ l Hl) as [_ [_ [H _]]].
  exact H.
Defined.

(* ------------------------------------------------------------------ *)

Ltac returned r test :=
  let l := fresh "l" in
  let Hl := fresh "Hl" in
  let Ht := fresh "Ht" in
  destruct (returned_with_true r test) as [l [Hl Ht]];
  [vm_compute; reflexivity | ];
  cbv beta in Ht;
  rewrite ?andb_true_iff, ?Z.eqb_eq in Ht;
  exists l; split; [exact Hl | ].

(** With the configured target 1024, a crop of 49 x 49 is resized to
    1023 x 1023: the longer edge is not the target.  With target 784 a crop
    of 2 x 2 is resized to 1024 x 1024. *)
Lemma crop_rescale_misses_target :
  (exists l,
      run_full_pipeline Demo.bg Demo.fg50 FG_TOP_LEFT_POS FG_RELATIVE_SCALE 1024
      = Ok l
      /\ (cropped_height l, cropped_width l) = (1023, 1023)
      /\ Z.max (cropped_height l) (cropped_width l) <> 1024)
  /\ rescaled_shape 1024 49 49 = Ok (1023, 1023)
  /\ (exists l,
        Demo.run_784 = Ok l
        /\ Z.max (cropped_height l) (cropped_width l) <> 784).
Proof.
  split; [ | split; [vm_compute; reflexivity | ] ].
  - returned Demo.run_crop49
      (fun l => (cropped_height l =? 1023) && (cropped_width l =? 1023)).
    destruct Ht as [H1 H2]. rewrite H1, H2. split; [reflexivity | lia].
  - returned Demo.run_784
      (fun l => (cropped_height l =? 1024) && (cropped_width l =? 1024)).
    destruct Ht as [H1 H2]. rewrite H1, H2. lia.
Qed.

(** On a canvas of 392 x 784 the small resolution is 255 x 511: its
    longest edge is not 512. *)
Lemma small_resolution_511 :
  exists l,
    Demo.run_784 = Ok l
    /\ (bg_height l, bg_width l) = (392, 784)
    /\ (small_height l, small_width l) = (255, 511)
    /\ Z.max (small_height l) (small_width l) <> 512.
Proof.
  returned Demo.run_784
    (fun l => (bg_height l =? 392) && (bg_width l =? 784)
              && (small_height l =? 255) && (small_width l =? 511)).
  destruct Ht as [[[H1 H2] H3] H4]. rewrite H1, H2, H3, H4.
  repeat split; lia.
Qed.


(** Called with [max_edge_size = 512], the run resizes the background to
    256 x 512 and the 49 x 49 crop to 1023 x 1023: the longer edge of the
    crop is not 1024. *)
Lemma crop_edge_1023 :
  exists l,
    Demo.run_crop49_512 = Ok l
    /\ (bg_height l, bg_width l) = (256, 512)
    /\ (cropped_height l, cropped_width l) = (1023, 1023)
    /\ Z.max (cropped_height l) (cropped_width l) <> 1024.
Proof.
  returned Demo.run_crop49_512
    (fun l => (bg_height l =? 256) && (bg_width l =? 512)
              && (cropped_height l =? 1023) && (cropped_width l =? 1023)).
  destruct Ht as [[[H1 H2] H3] H4]. rewrite H1, H2, H3, H4.
  repeat split; lia.
Qed.

End Evaluation.

(* ================================================================== *)
(** * Signs of the computed sizes *)

Lemma binary_round_aux_sign (s : bool) (m e : Z) (l : location) :
  has_sign s (binary_round_aux prec emax s m e l).
Proof.
  unfold binary_round_aux.
  destruct (shr_fexp prec emax m e l) as [mrs e'].
  destruct (shr_fexp prec emax _ e' loc_Exact) as [mrs' e''].
  destruct (shr_m mrs'); [reflexivity | | exact I].
  destruct (_ <=? _); reflexivity.
Qed.

Lemma float_of_int_sign (n : Z) : has_sign (n <? 0) (float_of_int n).
Proof.
  unfold float_of_int, binary_normalize.
  destruct n as [ | p | p]; simpl; auto; unfold binary_round;
    destruct (shl_align _ _ _); apply binary_round_aux_sign.
Qed.

Lemma fmul_sign (sx sy : bool) (x y : pyfloat) :
  has_sign sx x -> has_sign sy y -> has_sign (xorb sx sy) (fmul x y).
Proof.
  unfold fmul.
  destruct x, y; simpl; intros Hx Hy; subst; auto; apply binary_round_aux_sign.
Qed.

Lemma fdiv_sign (sx sy : bool) (x y : pyfloat) :
  has_sign sx x -> has_sign sy y -> has_sign (xorb sx sy) (fdiv x y).
Proof.
  unfold fdiv.
  destruct x, y; simpl; intros Hx Hy; subst; auto.
  destruct (SFdiv_core_binary _ _ _ _ _ _) as [[mz ez] lz].
  apply binary_round_aux_sign.
Qed.

Lemma py_int_sign (x : pyfloat) (n : Z) :
  py_int x = Ok n ->
  (has_sign false x -> 0 <= n) /\ (has_sign true x -> n <= 0).
Proof.
  destruct x as [s | s | | s m e]; unfold py_int, has_sign; intros H;
    try discriminate H; injection H as H; subst n.
  - split; intros _; lia.
  - match goal with
    | |- context [if s then - ?a else ?a] => assert (Ha : 0 <= a)
    end.
    { destruct e as [ | p | p].
      - lia.
      - change (0 <= Z.shiftl (Z.pos m) (Z.pos p)). rewrite Z.shiftl_nonneg. lia.
      - change (0 <= Z.shiftr (Z.pos m) (Z.pos p)). rewrite Z.shiftr_nonneg. lia. }
    split; intros Hs; subst s; lia.
Qed.

Lemma int_scaled_sign (s : bool) (n : Z) (x : pyfloat) (r : Z) :
  int_scaled n x = Ok r -> has_sign s x ->
  (xorb (n <? 0) s = false -> 0 <= r) /\ (xorb (n <? 0) s = true -> r <= 0).
Proof.
  unfold int_scaled, int_times_float. intros H Hs.
  destruct (is_infinite (float_of_int n)); [discriminate H | ]. simpl in H.
  pose proof (fmul_sign _ _ _ _ (float_of_int_sign n) Hs) as Hm.
  destruct (py_int_sign _ _ H) as [Hp Hn].
  split; intros Hx; rewrite Hx in Hm; auto.
Qed.

Lemma truediv_sign (a b : Z) (q : pyfloat) :
  truediv a b = Ok q -> has_sign (xorb (a <? 0) (b <? 0)) q.
Proof.
  unfold truediv. destruct (b =? 0); [intros H; discriminate H | ].
  destruct (is_infinite _); intros H; [discriminate H | ].
  injection H as H. subst q.
  apply fdiv_sign; apply float_of_int_sign.
Qed.

(** With a non-negative target the new extents of non-negative extents are
    non-negative; with a negative target they are non-positive. *)
Lemma rescaled_shape_sign (target h w nh nw : Z) :
  rescaled_shape target h w = Ok (nh, nw) ->
  0 <= h -> 0 <= w ->
  (0 <= target -> 0 <= nh /\ 0 <= nw)
  /\ (target < 0 -> nh <= 0 /\ nw <= 0).
Proof.
  intros H Hh Hw.
  apply rescaled_shape_ok in H. destruct H as [scale [Hs [Eh Ew]]].
  apply truediv_sign in Hs.
  replace (Z.max h w <? 0) with false in Hs by (symmetry; apply Z.ltb_ge; lia).
  rewrite xorb_false_r in Hs.
  destruct (int_scaled_sign _ _ _ _ Eh Hs) as [Hh1 Hh2].
  destruct (int_scaled_sign _ _ _ _ Ew Hs) as [Hw1 Hw2].
  replace (h <? 0) with false in * by (symmetry; apply Z.ltb_ge; lia).
  replace (w <? 0) with false in * by (symmetry; apply Z.ltb_ge; lia).
  simpl in *.
  split; intros Ht.
  - replace (target <? 0) with false in * by (symmetry; apply Z.ltb_ge; lia). auto.
  - replace (target <? 0) with true in * by (symmetry; apply Z.ltb_lt; lia). auto.
Qed.

(** With target 0 every new extent is 0. *)
Lemma rescaled_shape_zero_target (h w nh nw : Z) :
  rescaled_shape 0 h w = Ok (nh, nw) -> nh = 0 /\ nw = 0.
Proof.
  intros H.
  apply rescaled_shape_ok in H. destruct H as [scale [Hs [Eh Ew]]].
  unfold truediv in Hs. destruct (Z.max h w =? 0); [discriminate Hs | ].
  destruct (is_infinite _); [discriminate Hs | ]. injection Hs as Hs.
  assert (Hz : forall n r, int_scaled n scale = Ok r -> r = 0).
  { intros n r. unfold int_scaled, int_times_float.
    destruct (is_infinite (float_of_int n)); [intros K; discriminate K | ].
    simpl. subst scale. unfold fdiv, fmul.
    change (float_of_int 0) with (S754_zero false).
    destruct (float_of_int (Z.max h w)); destruct (float_of_int n); simpl;
      intros K; try discriminate K; injection K as K; auto. }
  split; eapply Hz; eassumption.
Qed.

(* ================================================================== *)
(** * Errors raised by degenerate inputs *)

Lemma py_int_raises (x : pyfloat) (e : exn) :
  py_int x = Raise e -> e = OverflowError \/ e = ValueError.
Proof.
  destruct x; simpl; intros H; try discriminate H; injection H as H; auto.
Qed.

Lemma int_scaled_raises (n : Z) (x : pyfloat) (e : exn) :
  int_scaled n x = Raise e -> e = OverflowError \/ e = ValueError.
Proof.
  unfold int_scaled, int_times_float.
  destruct (is_infinite (float_of_int n)); simpl; intros H.
  - injection H as H. auto.
  - apply py_int_raises in H. exact H.
Qed.

(** The resizing arithmetic raises [ZeroDivisionError] exactly when both
    extents are such that their maximum is 0. *)
Lemma rescaled_shape_zero_division (target h w : Z) :
  rescaled_shape target h w = Raise ZeroDivisionError <-> Z.max h w = 0.
Proof.
  unfold rescaled_shape, truediv. split.
  - destruct (Z.max h w =? 0) eqn:E; [intros _; apply Z.eqb_eq; exact E | ].
    destruct (is_infinite _); simpl; intros H; [discriminate H | ].
    destruct (int_scaled h _) as [nh | e1] eqn:E1; simpl in H.
    + destruct (int_scaled w _) as [nw | e2] eqn:E2; simpl in H.
      * discriminate H.
      * injection H as H. subst e2.
        apply int_scaled_raises in E2. destruct E2 as [K | K]; discriminate K.
    + injection H as H. subst e1.
      apply int_scaled_raises in E1. destruct E1 as [K | K]; discriminate K.
  - intros H. rewrite H. reflexivity.
Qed.

Section Degenerate.
Context {A : Arith} {C : Collaborators A}.

Lemma empty_slice (len a b : Z) :
  0 <= b <= a -> slice_len (adjust_index len a) (adjust_index len b) = 0.
Proof.
  intros H. unfold slice_len, adjust_index.
  replace (a <? 0) with false by (symmetry; apply Z.ltb_ge; lia).
  replace (b <? 0) with false by (symmetry; apply Z.ltb_ge; lia).
  lia.
Qed.

Lemma inner_slice (len a b : Z) :
  0 <= a <= b -> b <= len ->
  adjust_index len a = a /\ slice_len (adjust_index len a) (adjust_index len b) = b - a.
Proof.
  intros H Hb. unfold slice_len, adjust_index.
  replace (a <? 0) with false by (symmetry; apply Z.ltb_ge; lia).
  replace (b <? 0) with false by (symmetry; apply Z.ltb_ge; lia).
  lia.
Qed.

Lemma chan_ok (m : image) (k : Z) (p : plane) :
  0 <= k -> chan m k = Ok p ->
  k < i_c m /\ p_h p = i_h m /\ p_w p = i_w m
  /\ forall i j, p_at p i j = i_at m i j k.
Proof.
  intros Hk. unfold chan.
  replace (k <? 0) with false by (symmetry; apply Z.ltb_ge; lia).
  destruct ((0 <=? k) && (k <? i_c m)) eqn:E; intros H; [ | discriminate H].
  apply andb_true_iff in E. destruct E as [_ E]. apply Z.ltb_lt in E.
  injection H as H. subst p. simpl. auto.
Qed.

End Degenerate.

(** X1: the resizing arithmetic raises [ZeroDivisionError] exactly when the
    larger of the two extents is 0, so a run on a background image without
    pixels raises [ZeroDivisionError] at its first division, whatever the
    other arguments are. *)
Theorem empty_background_raises
    {A : Arith} {C : Collaborators A} :
  (forall target h w,
      rescaled_shape target h w = Raise ZeroDivisionError <-> Z.max h w = 0)
  /\ (forall bg_im_original fg_im_transparent pos rel max_edge_size,
        Z.max (i_h bg_im_original) (i_w bg_im_original) = 0 ->
        run_full_pipeline bg_im_original fg_im_transparent pos rel max_edge_size
        = Raise ZeroDivisionError).
Proof.
  split; [exact rescaled_shape_zero_division | ].
  intros bg fg pos rel mes H.
  unfold run_full_pipeline.
  rewrite (proj2 (rescaled_shape_zero_division mes _ _) H). reflexivity.
Qed.

(** X2: once the background has been resized, a foreground image with three
    channels or fewer (no alpha channel) makes the run raise [IndexError]:
    the mask is read from channel 3. *)
Theorem missing_alpha_raises
    {A : Arith} {C : Collaborators A}
    (bg_im_original fg_im_transparent : image)
    (pos : pyfloat * pyfloat) (rel : pyfloat) (max_edge_size : Z)
    (h w : Z) (resized : image) :
  rescaled_shape max_edge_size (i_h bg_im_original) (i_w bg_im_original)
  = Ok (h, w) ->
  resize bg_im_original (h, w) None = Ok resized ->
  i_c fg_im_transparent <= 3 ->
  run_full_pipeline bg_im_original fg_im_transparent pos rel max_edge_size
  = Raise IndexError.
Proof.
  intros H1 H2 H3.
  unfold run_full_pipeline.
  rewrite H1. cbv beta iota delta [bind]. rewrite H2.
  unfold chan.
  replace (3 <? 0) with false by reflexivity.
  replace ((0 <=? 3) && (3 <? i_c fg_im_transparent)) with false; [reflexivity | ].
  symmetry. apply andb_false_iff. right. apply Z.ltb_ge. exact H3.
Qed.

(** X3: when the bounding box of the mask is empty in both directions
    ([bb[1] <= bb[0]] and [bb[3] <= bb[2]], as for the box (r, r, c, c) of a
    single pixel), the crop [fg[bb[0]:bb[1], bb[2]:bb[3]]] has no pixel and
    the run raises [ZeroDivisionError] when it computes the crop's scale. *)
Theorem empty_crop_raises
    {A : Arith} {C : Collaborators A}
    (bg_im_original fg_im_transparent : image)
    (pos : pyfloat * pyfloat) (rel : pyfloat) (max_edge_size : Z)
    (h w : Z) (resized : image) (fg_mask : plane) (bb0 bb1 bb2 bb3 : Z) :
  rescaled_shape max_edge_size (i_h bg_im_original) (i_w bg_im_original)
  = Ok (h, w) ->
  resize bg_im_original (h, w) None = Ok resized ->
  chan fg_im_transparent 3 = Ok fg_mask ->
  get_bbox fg_mask = Ok (bb0, bb1, bb2, bb3) ->
  0 <= bb1 <= bb0 ->
  0 <= bb3 <= bb2 ->
  run_full_pipeline bg_im_original fg_im_transparent pos rel max_edge_size
  = Raise ZeroDivisionError.
Proof.
  intros H1 H2 H3 H4 Hr Hc.
  unfold run_full_pipeline.
  rewrite H1. cbv beta iota delta [bind]. rewrite H2, H3, H4.
  cbv beta iota zeta.
  rewrite (proj2 (rescaled_shape_zero_division MAX_EDGE_SIZE _ _)); [reflexivity | ].
  simpl. rewrite !empty_slice by assumption. reflexivity.
Qed.

(** X4: in a run that returns, with a bounding box inside the foreground,
    the crop is the half-open box: rows [bb[0]] to [bb[1] - 1] and columns
    [bb[2]] to [bb[3] - 1], for the image and for the mask.  Its size
    [(bb[1] - bb[0], bb[3] - bb[2])] is what the crop's scale is computed
    from, and it is not empty in both directions. *)
Theorem crop_is_half_open_box
    {A : Arith} {C : Collaborators A}
    (bg_im_original fg_im_transparent : image)
    (pos : pyfloat * pyfloat) (rel : pyfloat) (max_edge_size : Z) (l : locals)
    (fg_mask : plane) (bb0 bb1 bb2 bb3 : Z) :
  run_full_pipeline bg_im_original fg_im_transparent pos rel max_edge_size = Ok l ->
  chan fg_im_transparent 3 = Ok fg_mask ->
  get_bbox fg_mask = Ok (bb0, bb1, bb2, bb3) ->
  0 <= bb0 <= bb1 -> bb1 <= i_h fg_im_transparent ->
  0 <= bb2 <= bb3 -> bb3 <= i_w fg_im_transparent ->
  let crop := crop_image (chans fg_im_transparent 0 3) bb0 bb1 bb2 bb3 in
  let mask_crop := crop_plane fg_mask bb0 bb1 bb2 bb3 in
  image_shape crop = (bb1 - bb0, bb3 - bb2)
  /\ plane_shape mask_crop = (bb1 - bb0, bb3 - bb2)
  /\ (forall i j k, 0 <= k < 3 ->
        i_at crop i j k = i_at fg_im_transparent (bb0 + i) (bb2 + j) k)
  /\ (forall i j,
        p_at mask_crop i j = i_at fg_im_transparent (bb0 + i) (bb2 + j) 3)
  /\ rescaled_shape MAX_EDGE_SIZE (bb1 - bb0) (bb3 - bb2)
     = Ok (cropped_height l, cropped_width l)
  /\ (bb0 < bb1 \/ bb2 < bb3).
Proof.
  intros H Hchan Hbb Hr Hr' Hc Hc' crop mask_crop.
  destruct (chan_ok fg_im_transparent 3 fg_mask ltac:(lia) Hchan) as [Hk [Hph [Hpw Hpat]]].
  destruct (inner_slice (i_h fg_im_transparent) bb0 bb1 Hr Hr') as [Hr0 Hrl].
  destruct (inner_slice (i_w fg_im_transparent) bb2 bb3 Hc Hc') as [Hc0 Hcl].
  assert (Hshape : image_shape crop = (bb1 - bb0, bb3 - bb2)).
  { unfold crop, image_shape, crop_image. simpl. rewrite Hrl, Hcl. reflexivity. }
  assert (Hresc : rescaled_shape MAX_EDGE_SIZE (bb1 - bb0) (bb3 - bb2)
                  = Ok (cropped_height l, cropped_width l)).
  { run_inv H. cbn [cropped_height cropped_width].
    match goal with
    | E1 : Ok ?m = Ok fg_mask, E2 : get_bbox ?m = Ok _ |- _ =>
        injection E1 as E1; subst m; rewrite Hbb in E2; injection E2 as; subst
    end.
    match goal with
    | E : rescaled_shape MAX_EDGE_SIZE _ _ = Ok (?a, ?b) |- _ =>
        simpl in E; rewrite Hrl, Hcl in E; exact E
    end. }
  split; [exact Hshape | ].
  split.
  { unfold mask_crop, plane_shape, crop_plane. simpl.
    rewrite Hph, Hpw, Hrl, Hcl. reflexivity. }
  split.
  { intros i j k Hk3. unfold crop, crop_image, chans. simpl.
    rewrite Hr0, Hc0.
    replace (adjust_index (i_c fg_im_transparent) 0) with 0
      by (unfold adjust_index; simpl; lia).
    reflexivity. }
  split.
  { intros i j. unfold mask_crop, crop_plane. simpl.
    rewrite Hph, Hpw, Hr0, Hc0. apply Hpat. }
  split; [exact Hresc | ].
  apply rescaled_shape_nonzero in Hresc. lia.
Qed.

(* ================================================================== *)
(** * Sizes and offsets of a run that returns *)

(** X5: a run called with [max_edge_size <= 0] on a well-formed background
    never returns: the canvas extents come out non-positive, so either
    [np.zeros] refuses them or the canvas is 0 x 0 and the division by its
    longest edge raises. *)
Theorem nonpositive_target_never_returns
    {A : Arith} {C : Collaborators A}
    (bg_im_original fg_im_transparent : image)
    (pos : pyfloat * pyfloat) (rel : pyfloat) (max_edge_size : Z) :
  0 <= i_h bg_im_original -> 0 <= i_w bg_im_original ->
  max_edge_size <= 0 ->
  is_ok (run_full_pipeline bg_im_original fg_im_transparent pos rel max_edge_size)
  = false.
Proof.
  intros Hh Hw Hm.
  destruct (run_full_pipeline _ _ _ _ _) as [l | e] eqn:H; [ | reflexivity].
  exfalso. run_inv H.
  match goal with
  | E : rescaled_shape max_edge_size _ _ = Ok (?a, ?b),
    Z0 : np_zeros ?a ?b = Ok _,
    S0 : rescaled_shape 512 ?a ?b = Ok _ |- _ =>
      apply np_zeros_shape in Z0; destruct Z0 as [_ [_ [Ha Hb]]];
      apply rescaled_shape_nonzero in S0;
      assert (Hle : a <= 0 /\ b <= 0)
  end.
  { destruct (Z.eq_dec max_edge_size 0) as [K | K].
    - subst max_edge_size.
      match goal with
      | E : rescaled_shape 0 _ _ = Ok _ |- _ =>
          apply rescaled_shape_zero_target in E; lia
      end.
    - match goal with
      | E : rescaled_shape max_edge_size _ _ = Ok _ |- _ =>
          apply rescaled_shape_sign in E; try assumption;
          destruct E as [_ E]; apply E; lia
      end. }
  lia.
Qed.

(** X6: in every run that returns, the canvas extents are non-negative and
    not both 0, and the extents of the rescaled crop and of the small
    buffers are non-negative; when [fg_scale_relative] has a clear sign bit
    the extents of the placed patch are non-negative too. *)
Theorem sizes_are_nonnegative
    {A : Arith} {C : Collaborators A}
    (bg_im_original fg_im_transparent : image)
    (pos : pyfloat * pyfloat) (rel : pyfloat) (max_edge_size : Z) (l : locals) :
  run_full_pipeline bg_im_original fg_im_transparent pos rel max_edge_size = Ok l ->
  (0 <= bg_height l /\ 0 <= bg_width l /\ 1 <= Z.max (bg_height l) (bg_width l))
  /\ (0 <= cropped_height l /\ 0 <= cropped_width l)
  /\ (0 <= small_height l /\ 0 <= small_width l)
  /\ (has_sign false rel -> 0 <= fg_scaled_height l /\ 0 <= fg_scaled_width l).
Proof.
  intros H. run_inv H.
  cbn [bg_height bg_width cropped_height cropped_width small_height small_width
       fg_scaled_height fg_scaled_width].
  match goal with
  | Z0 : np_zeros ?a ?b = Ok _,
    S0 : rescaled_shape 512 ?a ?b = Ok (?sh, ?sw),
    K0 : rescaled_shape MAX_EDGE_SIZE (i_h ?crop) (i_w ?crop) = Ok (?ch, ?cw),
    F1 : int_scaled ?ch rel = Ok ?fh,
    F2 : int_scaled ?cw rel = Ok ?fw |- _ =>
      apply np_zeros_shape in Z0; destruct Z0 as [_ [_ [Ha Hb]]];
      pose proof (rescaled_shape_nonzero _ _ _ _ S0) as Hnz;
      destruct (proj1 (rescaled_shape_sign _ _ _ _ _ S0 Ha Hb) ltac:(lia))
        as [Hsh Hsw];
      assert (Hext : 0 <= i_h crop /\ 0 <= i_w crop)
        by (split; apply slice_len_nonneg);
      destruct (proj1 (rescaled_shape_sign _ _ _ _ _ K0 (proj1 Hext) (proj2 Hext))
                  ltac:(unfold MAX_EDGE_SIZE; lia)) as [Hch Hcw];
      pose proof (fun K => proj1 (int_scaled_sign false _ _ _ F1 K)) as Hfh;
      pose proof (fun K => proj1 (int_scaled_sign false _ _ _ F2 K)) as Hfw
  end.
  split; [lia | ]. split; [lia | ]. split; [lia | ].
  intros Hrel. split.
  - apply Hfh; [exact Hrel | ].
    rewrite xorb_false_r. apply Z.ltb_ge. lia.
  - apply Hfw; [exact Hrel | ].
    rewrite xorb_false_r. apply Z.ltb_ge. lia.
Qed.

Section Landing.
Context {A : Arith}.

(** A patch of two or more rows fits the slice [a[start : start + h]] of an
    axis exactly at the offsets where it lands. *)
Lemma fits_lands (len start h : Z) :
  0 <= len -> 1 < h ->
  fits h (slice_len (adjust_index len start) (adjust_index len (start + h))) = true
  <-> lands len start h.
Proof.
  intros Hl Hh. rewrite fits_iff. unfold lands, slice_len, adjust_index.
  destruct (start <? 0) eqn:E1; destruct (start + h <? 0) eqn:E2;
    rewrite ?Z.ltb_lt, ?Z.ltb_ge in E1, E2; lia.
Qed.

Lemma lands_slice (len start h : Z) :
  0 <= len -> 1 < h -> lands len start h ->
  adjust_index len start = wrap_index len start
  /\ adjust_index len (start + h) = wrap_index len start + h.
Proof.
  intros Hl Hh. unfold lands, adjust_index, wrap_index.
  destruct (start <? 0) eqn:E1; destruct (start + h <? 0) eqn:E2;
    rewrite ?Z.ltb_lt, ?Z.ltb_ge in E1, E2; lia.
Qed.

Lemma set_slice_lands (a b r : plane) (top left : Z) :
  0 <= p_h a -> 0 <= p_w a -> 1 < p_h b -> 1 < p_w b ->
  set_slice a top (top + p_h b) left (left + p_w b) b = Ok r ->
  lands (p_h a) top (p_h b) /\ lands (p_w a) left (p_w b)
  /\ plane_shape r = plane_shape a
  /\ forall i j,
       p_at r i j
       = if in_footprint (wrap_index (p_h a) top, wrap_index (p_w a) left)
              (p_h b) (p_w b) i j
         then to_float32
                (p_at b (i - wrap_index (p_h a) top) (j - wrap_index (p_w a) left))
         else p_at a i j.
Proof.
  intros Ha Hw Hb Hbw. unfold set_slice.
  destruct (fits (p_h b) _) eqn:F1; [ | intros H; discriminate H].
  destruct (fits (p_w b) _) eqn:F2; [ | intros H; discriminate H].
  apply fits_lands in F1; try assumption.
  apply fits_lands in F2; try assumption.
  destruct (lands_slice _ _ _ Ha Hb F1) as [R0 R1].
  destruct (lands_slice _ _ _ Hw Hbw F2) as [C0 C1].
  rewrite R0, R1, C0, C1. simpl. intros H. injection H as H. subst r.
  split; [exact F1 | ]. split; [exact F2 | ]. split; [reflexivity | ].
  intros i j. unfold in_footprint, pick. simpl.
  replace (p_h b =? 1) with false by (symmetry; apply Z.eqb_neq; lia).
  replace (p_w b =? 1) with false by (symmetry; apply Z.eqb_neq; lia).
  reflexivity.
Qed.

End Landing.

(** X7: the write [canvas[row : row + h, col : col + w] = patch] into an
    [np.float32] canvas of a patch of two or more rows and columns returns
    exactly when the patch lands on both axes: inside the axis, or at a
    wholly negative offset, which counts from the end (a patch ending
    exactly at offset 0, or straddling an edge, raises).  When it returns,
    the canvas keeps its shape and holds the entries of the patch, each cast
    to [np.float32], at the wrapped offset and its former entries elsewhere;
    so in a run that returns, the placed patch lands on both axes of the
    canvas. *)
Theorem slice_write_lands
    {A : Arith} {C : Collaborators A} (SC : ShapeContracts C) :
  (forall (canvas patch : plane) (row col : Z),
      0 <= p_h canvas -> 0 <= p_w canvas -> 1 < p_h patch -> 1 < p_w patch ->
      (is_ok (set_slice canvas row (row + p_h patch) col (col + p_w patch) patch)
       = true
       <-> lands (p_h canvas) row (p_h patch) /\ lands (p_w canvas) col (p_w patch))
      /\ (forall full,
            set_slice canvas row (row + p_h patch) col (col + p_w patch) patch
            = Ok full ->
            plane_shape full = plane_shape canvas
            /\ forall i j,
                 p_at full i j
                 = if in_footprint
                        (wrap_index (p_h canvas) row, wrap_index (p_w canvas) col)
                        (p_h patch) (p_w patch) i j
                   then to_float32
                          (p_at patch (i - wrap_index (p_h canvas) row)
                                      (j - wrap_index (p_w canvas) col))
                   else p_at canvas i j))
  /\ (forall bg_im_original fg_im_transparent pos rel max_edge_size l,
        run_full_pipeline bg_im_original fg_im_transparent pos rel max_edge_size
        = Ok l ->
        1 < fg_scaled_height l -> 1 < fg_scaled_width l ->
        lands (bg_height l) (top l) (fg_scaled_height l)
        /\ lands (bg_width l) (left l) (fg_scaled_width l)).
Proof.
  split.
  - intros canvas patch row col Ha Hw Hb Hbw. split.
    + split.
      * intros H. apply is_ok_true in H. destruct H as [r Hr].
        destruct (set_slice_lands _ _ _ _ _ Ha Hw Hb Hbw Hr) as [L1 [L2 _]]. auto.
      * intros [L1 L2]. unfold set_slice.
        rewrite (proj2 (fits_lands _ _ _ Ha Hb) L1).
        rewrite (proj2 (fits_lands _ _ _ Hw Hbw) L2). reflexivity.
    + intros full H.
      destruct (set_slice_lands _ _ _ _ _ Ha Hw Hb Hbw H) as [_ [_ [Hs Hp]]]. auto.
  - intros bg fg pos rel mes l H Hfh Hfw. run_inv H.
    cbn [top left fg_scaled_height fg_scaled_width bg_height bg_width] in *.
    match goal with
    | Z0 : np_zeros ?h ?w = Ok ?z,
      S0 : set_slice ?z ?t (?t + ?sh) ?c (?c + ?sw) ?m = Ok _,
      R0 : resize2 _ (?sh, ?sw) (Some true) = Ok ?m |- _ =>
        apply np_zeros_shape in Z0; destruct Z0 as [Zh [Zw [H0 W0]]];
        apply resize2_shape in R0; destruct R0 as [Rh Rw];
        rewrite <- Rh, <- Rw in S0;
        apply set_slice_lands in S0; try lia;
        destruct S0 as [L1 [L2 _]];
        rewrite Zh, Rh in L1; rewrite Zw, Rw in L2
    end.
    auto.
Qed.

(** X8: when both components of the relative position have a clear sign bit
    (they are not negative), a run that returns has a non-negative placement
    [(top, left)], and a patch of two or more rows (columns) lies inside the
    canvas. *)
Theorem nonnegative_position_stays_inside
    {A : Arith} {C : Collaborators A} (SC : ShapeContracts C)
    (bg_im_original fg_im_transparent : image)
    (pos : pyfloat * pyfloat) (rel : pyfloat) (max_edge_size : Z) (l : locals) :
  has_sign false (fst pos) -> has_sign false (snd pos) ->
  run_full_pipeline bg_im_original fg_im_transparent pos rel max_edge_size = Ok l ->
  (0 <= top l /\ 0 <= left l)
  /\ (1 < fg_scaled_height l -> top l + fg_scaled_height l <= bg_height l)
  /\ (1 < fg_scaled_width l -> left l + fg_scaled_width l <= bg_width l).
Proof.
  intros Hp0 Hp1 H. run_inv H.
  cbn [top left fg_scaled_height fg_scaled_width bg_height bg_width].
  match goal with
  | Z0 : np_zeros ?h ?w = Ok ?z,
    S0 : set_slice ?z ?t (?t + ?sh) ?c (?c + ?sw) ?m = Ok _,
    R0 : resize2 _ (?sh, ?sw) (Some true) = Ok ?m,
    T0 : int_scaled ?h (fst pos) = Ok ?t,
    T1 : int_scaled ?w (snd pos) = Ok ?c |- _ =>
      apply np_zeros_shape in Z0; destruct Z0 as [Zh [Zw [H0 W0]]];
      apply resize2_shape in R0; destruct R0 as [Rh Rw];
      pose proof (proj1 (int_scaled_sign false _ _ _ T0 Hp0)) as Ht;
      pose proof (proj1 (int_scaled_sign false _ _ _ T1 Hp1)) as Hl;
      unfold set_slice in S0;
      destruct (fits (p_h m) _) eqn:F1; [ | discriminate S0];
      destruct (fits (p_w m) _) eqn:F2; [ | discriminate S0];
      rewrite Rh, Zh in F1; rewrite Rw, Zw in F2;
      assert (Ht' : 0 <= t)
        by (apply Ht; rewrite xorb_false_r; apply Z.ltb_ge; lia);
      assert (Hl' : 0 <= c)
        by (apply Hl; rewrite xorb_false_r; apply Z.ltb_ge; lia)
  end.
  split; [auto | ].
  split; intros; eapply fits_clamped; try eassumption; lia.
Qed.

(* ================================================================== *)
(** * The buffers handed to the harmonizer and the reshading model *)

(** X9: in a run that returns, the full-canvas mask and depth have the size
    of the canvas, the mask with one channel.  With a non-negative placement
    and a patch of two or more rows and columns, each holds the entries of
    the rescaled foreground buffer, cast to [np.float32], on the footprint
    of the patch at [(top, left)] and 0 everywhere else.  The cast rounds:
    a mask entry of 0.3 is stored as 5033165 / 2^24. *)
Theorem full_canvases_hold_the_patch
    {A : Arith} {C : Collaborators A} (SC : ShapeContracts C)
    (bg_im_original fg_im_transparent : image)
    (pos : pyfloat * pyfloat) (rel : pyfloat) (max_edge_size : Z) (l : locals) :
  run_full_pipeline bg_im_original fg_im_transparent pos rel max_edge_size = Ok l ->
  (image_shape (fg_full_mask l) = (bg_height l, bg_width l)
   /\ i_c (fg_full_mask l) = 1
   /\ plane_shape (fg_full_depth l) = (bg_height l, bg_width l))
  /\ (0 <= top l -> 0 <= left l ->
      1 < fg_scaled_height l -> 1 < fg_scaled_width l ->
      forall i j,
        (forall k,
            i_at (fg_full_mask l) i j k
            = if in_footprint (top l, left l)
                   (fg_scaled_height l) (fg_scaled_width l) i j
              then to_float32
                     (p_at (fg_mask_rescaled l) (i - top l) (j - left l))
              else v0)
        /\ p_at (fg_full_depth l) i j
           = if in_footprint (top l, left l)
                  (fg_scaled_height l) (fg_scaled_width l) i j
             then to_float32
                    (p_at (fg_depth_rescaled l) (i - top l) (j - left l))
             else v0)
  /\ (Binary64.round32 (fdiv (float_of_int 3) (float_of_int 10))
      = S754_finite false 5404319767592960 (-54)
      /\ 5404319767592960 = 5033165 * 2 ^ 30
      /\ fdiv (float_of_int 3) (float_of_int 10)
         = S754_finite false 5404319552844595 (-54)).
Proof.
  intros H. run_inv H.
  cbn [top left fg_scaled_height fg_scaled_width bg_height bg_width
       fg_full_mask fg_full_depth fg_mask_rescaled fg_depth_rescaled].
  match goal with
  | Z0 : np_zeros ?h ?w = Ok ?z,
    S0 : set_slice ?z ?t (?t + ?sh) ?c (?c + ?sw) ?m = Ok ?fm,
    S1 : set_slice ?z ?t (?t + ?sh) ?c (?c + ?sw) ?d = Ok ?fd,
    R0 : resize2 _ (?sh, ?sw) (Some true) = Ok ?m,
    R1 : resize2 _ (?sh, ?sw) (Some true) = Ok ?d |- _ =>
      assert (Hz : forall i j, p_at z i j = v0)
        by (revert Z0; unfold np_zeros; destruct (_ || _); intros Z0;
            [discriminate Z0 | injection Z0 as Z0; subst z; reflexivity]);
      apply np_zeros_shape in Z0; destruct Z0 as [Zh [Zw [H0 W0]]];
      apply resize2_shape in R0; destruct R0 as [Rh Rw];
      apply resize2_shape in R1; destruct R1 as [Dh Dw];
      assert (Hshape : forall b r, set_slice z t (t + sh) c (c + sw) b = Ok r ->
                                   plane_shape r = (h, w))
        by (intros b r; unfold set_slice; destruct (_ && _); intros K;
            [injection K as K; subst r; unfold plane_shape; simpl;
             rewrite Zh, Zw; reflexivity | discriminate K]);
      pose proof (Hshape _ _ S0) as Hm; pose proof (Hshape _ _ S1) as Hd;
      rewrite <- Rh, <- Rw in S0; rewrite <- Dh, <- Dw in S1;
      pose proof (fun K1 K2 K3 K4 => set_slice_lands z m fm t c K1 K2 K3 K4 S0) as Lm;
      pose proof (fun K1 K2 K3 K4 => set_slice_lands z d fd t c K1 K2 K3 K4 S1) as Ld;
      assert (Wt : 0 <= t -> wrap_index (p_h z) t = t)
        by (intros K; unfold wrap_index;
            replace (t <? 0) with false by (symmetry; apply Z.ltb_ge; lia);
            reflexivity);
      assert (Wl : 0 <= c -> wrap_index (p_w z) c = c)
        by (intros K; unfold wrap_index;
            replace (c <? 0) with false by (symmetry; apply Z.ltb_ge; lia);
            reflexivity)
  end.
  split.
  { unfold image_shape, plane_shape in *. simpl.
    injection Hm as Hm1 Hm2. split; [congruence | ]. split; [reflexivity | assumption]. }
  split; [ | split; [vm_compute; reflexivity | split; reflexivity]].
  intros Ht Hl Hh Hw.
  destruct Lm as [_ [_ [_ Lm]]]; try lia.
  destruct Ld as [_ [_ [_ Ld]]]; try lia.
  specialize (Wt Ht). specialize (Wl Hl).
  intros ri ci. split.
  - intros k. simpl. rewrite Lm, Wt, Wl, Rh, Rw, Hz. reflexivity.
  - rewrite Ld, Wt, Wl, Dh, Dw, Hz. reflexivity.
Qed.

Section Broadcast.
Context {A : Arith}.

Lemma pick_inside (n i : Z) : 0 <= i < n -> pick n i = i.
Proof.
  intros H. unfold pick. destruct (n =? 1) eqn:E; [ | reflexivity].
  apply Z.eqb_eq in E. lia.
Qed.

(** A binary element operation between an image and a one-channel image of
    the same spatial size repeats the single channel over all channels. *)
Lemma elementwise_one_channel (op : val -> val -> val) (x y r : image) :
  i_h y = i_h x -> i_w y = i_w x -> i_c y = 1 ->
  elementwise op x y = Ok r ->
  i_h r = i_h x /\ i_w r = i_w x /\ i_c r = i_c x
  /\ forall i j k,
       0 <= i < i_h x -> 0 <= j < i_w x -> 0 <= k < i_c x ->
       i_at r i j k = op (i_at x i j k) (i_at y i j 0).
Proof.
  intros Hh Hw Hc. unfold elementwise, common.
  rewrite Hh, Hw, Hc, !Z.eqb_refl.
  assert (K : (if i_c x =? 1 then Some (i_c x)
               else if i_c x =? 1 then Some 1
               else if true then Some (i_c x) else None) = Some (i_c x))
    by (destruct (i_c x =? 1); reflexivity).
  rewrite K. intros H. injection H as H. subst r. simpl.
  repeat split; try reflexivity.
  intros i j k Hi Hj Hk.
  rewrite !pick_inside by assumption. reflexivity.
Qed.

End Broadcast.

(** X10: when the harmonizer returns an albedo of the spatial size of the
    composite it is given and [uninvert] keeps the shape of its argument, the
    harmonized composite and the diagnostic albedo of a run that returns have
    the size of the canvas, and the one-channel shading is broadcast over
    the colour channels: at each pixel and channel the harmonized composite
    is the linear harmonized albedo times the uninverted shading of the
    pixel, and the diagnostic albedo is [comp ** 2.2] divided by it. *)
Theorem shading_is_broadcast
    {A : Arith} {C : Collaborators A} (SC : ShapeContracts C)
    (bg_im_original fg_im_transparent : image)
    (pos : pyfloat * pyfloat) (rel : pyfloat) (max_edge_size : Z) (l : locals) :
  (forall c m s h,
      harmonize_albedo c m s = Ok h -> i_h h = i_h c /\ i_w h = i_w c) ->
  (forall x y,
      uninvert x = Ok y -> i_h y = i_h x /\ i_w y = i_w x /\ i_c y = i_c x) ->
  run_full_pipeline bg_im_original fg_im_transparent pos rel max_edge_size = Ok l ->
  exists shading,
    uninvert (comp_inv_shading l) = Ok shading
    /\ (image_shape shading = (bg_height l, bg_width l) /\ i_c shading = 1)
    /\ (image_shape (comp_harmonized l) = (bg_height l, bg_width l)
        /\ i_c (comp_harmonized l) = i_c (harmonizer_output l))
    /\ (image_shape (original_albedo l) = (bg_height l, bg_width l)
        /\ i_c (original_albedo l) = i_c (comp l))
    /\ forall i j k,
         0 <= i < bg_height l -> 0 <= j < bg_width l ->
         (0 <= k < i_c (harmonizer_output l) ->
          i_at (comp_harmonized l) i j k
          = vmul (vpow (i_at (harmonizer_output l) i j k) gamma)
                 (i_at shading i j 0))
         /\ (0 <= k < i_c (comp l) ->
             i_at (original_albedo l) i j k
             = vdiv (vpow (i_at (comp l) i j k) gamma) (i_at shading i j 0)).
Proof.
  intros Hharm Hun H. run_inv H.
  cbn [bg_height bg_width comp comp_inv_shading comp_harmonized original_albedo
       harmonizer_output].
  match goal with
  | R0 : resize bg_im_original (?h, ?w) None = Ok ?b,
    P0 : run_pipeline (image_pow ?b gamma) = Ok (?p, _),
    U0 : uninvert ?cis = Ok ?sh,
    HA : harmonize_albedo ?cmp _ ?cis = Ok ?ho,
    E1 : elementwise vdiv ?x1 ?sh = Ok ?oa,
    E2 : elementwise vmul ?x2 ?sh = Ok ?ch |- _ =>
      apply resize_shape in R0; destruct R0 as [Bh [Bw _]];
      apply run_pipeline_shape in P0; destruct P0 as [[Ph Pw] _];
      destruct (Hun _ _ U0) as [Uh [Uw Uc]];
      destruct (Hharm _ _ _ _ HA) as [Hh Hw];
      simpl in Uh, Uw, Uc, Hh, Hw, Ph, Pw;
      exists sh; split; [exact U0 | ];
      assert (Sh : i_h sh = h) by congruence;
      assert (Sw : i_w sh = w) by congruence;
      assert (Oh : i_h ho = h) by congruence;
      assert (Ow : i_w ho = w) by congruence;
      apply elementwise_one_channel in E1;
        [ | simpl; congruence | simpl; congruence | exact Uc];
      apply elementwise_one_channel in E2;
        [ | simpl; congruence | simpl; congruence | exact Uc];
      destruct E1 as [A1 [A2 [A3 A4]]]; destruct E2 as [B1 [B2 [B3 B4]]];
      simpl in A1, A2, A3, B1, B2, B3
  end.
  unfold image_shape.
  split; [split; [f_equal; assumption | assumption] | ].
  split; [split; [f_equal; congruence | assumption] | ].
  split; [split; [f_equal; congruence | exact A3] | ].
  intros pi pj pk Hi Hj. split; intros Hk.
  - rewrite B4 by (simpl; first [lia | exact Hk]). reflexivity.
  - rewrite A4 by (simpl; first [lia | exact Hk]). reflexivity.
Qed.

(** X11: a run that returns was given a foreground with four channels or
    more; the image cropped from it and resized, which is what the depth,
    intrinsic and normals estimators and the compositor receive, has exactly
    three channels, the alpha channel being split off as the mask, and the
    resized background keeps the channels of the background image. *)
Theorem alpha_is_split_off
    {A : Arith} {C : Collaborators A} (SC : ShapeContracts C)
    (bg_im_original fg_im_transparent : image)
    (pos : pyfloat * pyfloat) (rel : pyfloat) (max_edge_size : Z) (l : locals) :
  run_full_pipeline bg_im_original fg_im_transparent pos rel max_edge_size = Ok l ->
  4 <= i_c fg_im_transparent
  /\ i_c (fg_im_crop l) = 3
  /\ i_c (fg_im_rescaled l) = 3
  /\ i_c (bg_im l) = i_c bg_im_original
  /\ get_depth (fg_im_crop l) = Ok (fg_im_depth l)
  /\ get_omni_normals (fg_im_crop l) = Ok (fg_im_normals l)
  /\ exists shading,
       run_pipeline (image_pow (fg_im_crop l) gamma) = Ok (shading, fg_im_albedo l)
       /\ fg_im_inv_shading l = add_chan shading.
Proof.
  intros H. run_inv H.
  cbn [fg_im_crop fg_im_rescaled bg_im fg_im_depth fg_im_normals fg_im_albedo
       fg_im_inv_shading].
  match goal with
  | K0 : chan fg_im_transparent 3 = Ok ?m,
    R0 : resize bg_im_original _ None = Ok ?b,
    R1 : resize (crop_image (chans fg_im_transparent 0 3) _ _ _ _) _ None = Ok ?c,
    R2 : resize ?c _ (Some true) = Ok ?r |- _ =>
      destruct (chan_ok fg_im_transparent 3 m ltac:(lia) K0) as [Hc _];
      apply resize_shape in R0; destruct R0 as [_ [_ B]];
      apply resize_shape in R1; destruct R1 as [_ [_ C1]];
      apply resize_shape in R2; destruct R2 as [_ [_ C2]];
      simpl in C1;
      assert (Hs : slice_len (adjust_index (i_c fg_im_transparent) 0)
                     (adjust_index (i_c fg_im_transparent) 3) = 3)
        by (unfold slice_len, adjust_index; simpl; lia);
      rewrite Hs in C1
  end.
  split; [lia | ]. split; [assumption | ]. split; [congruence | ].
  split; [assumption | ]. split; [assumption | ]. split; [assumption | ].
  eexists. split; [eassumption | reflexivity].
Qed.

(* ================================================================== *)
(** * The background path does not see the foreground *)

(** Identify the values of equal calls in two inverted runs. *)
Ltac same_calls :=
  repeat match goal with
         | H : Ok _ = Ok _ |- _ => inversion H; subst; clear H
         | H1 : ?f = Ok ?x, H2 : ?f = Ok ?y |- _ =>
             rewrite H1 in H2; inversion H2; subst; clear H2
         end.

(** X12: two runs that return on the same background, relative position and
    [max_edge_size], whatever their foregrounds and relative scales, have the
    same canvas size, the same background buffers (resized image, depth,
    inverse shading, albedo, normals), the same placement [(top, left)], and
    the same small buffers and light coefficients. *)
Theorem background_path_ignores_foreground
    {A : Arith} {C : Collaborators A}
    (bg_im_original fg1 fg2 : image)
    (pos : pyfloat * pyfloat) (rel1 rel2 : pyfloat) (max_edge_size : Z)
    (l1 l2 : locals) :
  run_full_pipeline bg_im_original fg1 pos rel1 max_edge_size = Ok l1 ->
  run_full_pipeline bg_im_original fg2 pos rel2 max_edge_size = Ok l2 ->
  (bg_height l1 = bg_height l2 /\ bg_width l1 = bg_width l2)
  /\ (bg_im l1 = bg_im l2 /\ im_depth l1 = im_depth l2
      /\ im_inv_shading l1 = im_inv_shading l2 /\ im_albedo l1 = im_albedo l2
      /\ im_normals l1 = im_normals l2)
  /\ (top l1 = top l2 /\ left l1 = left l2)
  /\ (small_height l1 = small_height l2 /\ small_width l1 = small_width l2
      /\ small_bg_im l1 = small_bg_im l2
      /\ small_bg_normals l1 = small_bg_normals l2
      /\ small_bg_inv_shading l1 = small_bg_inv_shading l2
      /\ coeffs l1 = coeffs l2).
Proof.
  intros H1 H2. run_inv H1. run_inv H2.
  cbn [bg_height bg_width bg_im im_depth im_inv_shading im_albedo im_normals
       top left small_height small_width small_bg_im small_bg_normals
       small_bg_inv_shading coeffs].
  same_calls.
  repeat split; reflexivity.
Qed.

(* ================================================================== *)
(** * Further evaluation on the deterministic instance *)

Section FurtherEvaluation.

#[local] Existing Instance Demo.QcArith.
#[local] Existing Instance Demo.collaborators.

Lemma demo_harmonizer_keeps_size :
  forall c m s h,
    harmonize_albedo c m s = Ok h -> i_h h = i_h c /\ i_w h = i_w c.
Proof.
  intros c m s h H. injection H as H. subst h. auto.
Qed.

Lemma demo_uninvert_keeps_shape :
  forall x y,
    uninvert x = Ok y -> i_h y = i_h x /\ i_w y = i_w x /\ i_c y = i_c x.
Proof.
  intros x y H. injection H as H. subst y. simpl. auto.
Qed.

(** The run on an image without pixels. *)
Lemma empty_background_raises_witness :
  Z.max (i_h Demo.bg_empty) (i_w Demo.bg_empty) = 0
  /\ run_full_pipeline Demo.bg_empty Demo.fg
       FG_TOP_LEFT_POS FG_RELATIVE_SCALE MAX_EDGE_SIZE
     = Raise ZeroDivisionError.
Proof.
  split; [reflexivity | ].
  apply (proj2 (@empty_background_raises Demo.QcArith Demo.collaborators)).
  reflexivity.
Defined.

(** The configured run on an RGB foreground. *)
Lemma missing_alpha_raises_witness :
  i_c Demo.fg_rgb <= 3
  /\ run_full_pipeline Demo.bg Demo.fg_rgb
       FG_TOP_LEFT_POS FG_RELATIVE_SCALE MAX_EDGE_SIZE
     = Raise IndexError.
Proof.
  split; [simpl; lia | ].
  eapply (@missing_alpha_raises Demo.QcArith Demo.collaborators
            Demo.bg Demo.fg_rgb _ _ _ 512 1024).
  - vm_compute. reflexivity.
  - reflexivity.
  - simpl. lia.
Defined.

(** The configured run on a foreground with a single opaque pixel. *)
Lemma empty_crop_raises_witness :
  get_bbox (Demo.alpha Demo.fg_dot) = Ok (2, 2, 2, 2)
  /\ run_full_pipeline Demo.bg Demo.fg_dot
       FG_TOP_LEFT_POS FG_RELATIVE_SCALE MAX_EDGE_SIZE
     = Raise ZeroDivisionError.
Proof.
  assert (Hbb : get_bbox (Demo.alpha Demo.fg_dot) = Ok (2, 2, 2, 2))
    by (vm_compute; reflexivity).
  split; [exact Hbb | ].
  eapply (@empty_crop_raises Demo.QcArith Demo.collaborators
            Demo.bg Demo.fg_dot _ _ _ 512 1024 _ (Demo.alpha Demo.fg_dot)
            2 2 2 2).
  - vm_compute. reflexivity.
  - reflexivity.
  - reflexivity.
  - exact Hbb.
  - lia.
  - lia.
Defined.

(** The configured run: the 6 x 6 foreground with bounding box (1, 3, 1, 3)
    is cropped to rows and columns 1 and 2. *)
Lemma crop_is_half_open_box_witness :
  exists l,
    Demo.run = Ok l
    /\ get_bbox (Demo.alpha Demo.fg) = Ok (1, 3, 1, 3)
    /\ rescaled_shape MAX_EDGE_SIZE (3 - 1) (3 - 1)
       = Ok (cropped_height l, cropped_width l).
Proof.
  assert (Hbb : get_bbox (Demo.alpha Demo.fg) = Ok (1, 3, 1, 3))
    by (vm_compute; reflexivity).
  destruct (is_ok_true Demo.run demo_run_returns) as [l Hl].
  exists l. split; [exact Hl | ]. split; [exact Hbb | ].
  apply (@crop_is_half_open_box Demo.QcArith Demo.collaborators
           Demo.bg Demo.fg _ _ _ l (Demo.alpha Demo.fg) 1 3 1 3 Hl);
    try reflexivity; try exact Hbb; simpl; lia.
Defined.

(** The configured run with [max_edge_size = 0]. *)
Lemma nonpositive_target_never_returns_witness :
  is_ok (run_full_pipeline Demo.bg Demo.fg FG_TOP_LEFT_POS FG_RELATIVE_SCALE 0)
  = false.
Proof.
  apply (@nonpositive_target_never_returns Demo.QcArith Demo.collaborators);
    simpl; lia.
Defined.

(** The configured run: every size is non-negative. *)
Lemma sizes_are_nonnegative_witness :
  has_sign false FG_RELATIVE_SCALE
  /\ exists l,
       Demo.run = Ok l
       /\ 1 <= Z.max (bg_height l) (bg_width l)
       /\ 0 <= fg_scaled_height l /\ 0 <= fg_scaled_width l.
Proof.
  assert (Hs : has_sign false FG_RELATIVE_SCALE) by (vm_compute; reflexivity).
  split; [exact Hs | ].
  destruct (is_ok_true Demo.run demo_run_returns) as [l Hl].
  exists l. split; [exact Hl | ].
  destruct (@sizes_are_nonnegative _ _ _ _ _ _ _ l Hl)
    as [[_ [_ H1]] [_ [_ H2]]].
  split; [exact H1 | exact (H2 Hs)].
Defined.

(** The write of a 2 x 2 patch at offset (-4, -4) of a 4 x 4 canvas lands on
    rows and columns 0 and 1. *)
Lemma slice_write_lands_witness :
  ShapeContracts Demo.collaborators
  /\ is_ok (set_slice (Demo.qplane 4 4 0%Qc) (-4) (-4 + 2) (-4) (-4 + 2)
              (Demo.qplane 2 2 1%Qc)) = true.
Proof.
  split; [exact demo_contracts | ].
  apply (proj1 (proj1 (@slice_write_lands _ _ demo_contracts)
                  (Demo.qplane 4 4 0%Qc) (Demo.qplane 2 2 1%Qc) (-4) (-4)
                  ltac:(simpl; lia) ltac:(simpl; lia)
                  ltac:(simpl; lia) ltac:(simpl; lia))).
  split; right; simpl; lia.
Defined.

(** The configured run: the placement is non-negative and the patch lies
    inside the canvas. *)
Lemma nonnegative_position_stays_inside_witness :
  (has_sign false (fst FG_TOP_LEFT_POS) /\ has_sign false (snd FG_TOP_LEFT_POS))
  /\ exists l,
       Demo.run = Ok l
       /\ (0 <= top l /\ 0 <= left l)
       /\ (1 < fg_scaled_height l -> top l + fg_scaled_height l <= bg_height l).
Proof.
  assert (H0 : has_sign false (fst FG_TOP_LEFT_POS)) by (vm_compute; reflexivity).
  assert (H1 : has_sign false (snd FG_TOP_LEFT_POS)) by (vm_compute; reflexivity).
  split; [split; assumption | ].
  destruct (is_ok_true Demo.run demo_run_returns) as [l Hl].
  exists l. split; [exact Hl | ].
  destruct (@nonnegative_position_stays_inside _ _ demo_contracts
              _ _ _ _ _ l H0 H1 Hl) as [K1 [K2 _]].
  auto.
Defined.

(** The configured run: the full-canvas mask and depth have the canvas
    size. *)
Lemma full_canvases_hold_the_patch_witness :
  exists l,
    Demo.run = Ok l
    /\ image_shape (fg_full_mask l) = (bg_height l, bg_width l)
    /\ plane_shape (fg_full_depth l) = (bg_height l, bg_width l).
Proof.
  destruct (is_ok_true Demo.run demo_run_returns) as [l Hl].
  exists l. split; [exact Hl | ].
  destruct (@full_canvases_hold_the_patch _ _ demo_contracts _ _ _ _ _ l Hl)
    as [[K1 [_ K2]] _].
  auto.
Defined.

(** The configured run: the harmonized composite has the canvas size. *)
Lemma shading_is_broadcast_witness :
  exists l,
    Demo.run = Ok l
    /\ image_shape (comp_harmonized l) = (bg_height l, bg_width l)
    /\ image_shape (original_albedo l) = (bg_height l, bg_width l).
Proof.
  destruct (is_ok_true Demo.run demo_run_returns) as [l Hl].
  exists l. split; [exact Hl | ].
  destruct (@shading_is_broadcast _ _ demo_contracts _ _ _ _ _ l
              demo_harmonizer_keeps_size demo_uninvert_keeps_shape Hl)
    as [shading [_ [_ [[K1 _] [[K2 _] _]]]]].
  auto.
Defined.

(** The configured run: the cropped foreground has three channels. *)
Lemma alpha_is_split_off_witness :
  exists l,
    Demo.run = Ok l /\ i_c (fg_im_crop l) = 3 /\ i_c (fg_im_rescaled l) = 3.
Proof.
  destruct (is_ok_true Demo.run demo_run_returns) as [l Hl].
  exists l. split; [exact Hl | ].
  destruct (@alpha_is_split_off _ _ demo_contracts _ _ _ _ _ l Hl)
    as [_ [K1 [K2 _]]].
  auto.
Defined.

(** The configured runs on the 6 x 6 and on the 50 x 50 foreground: one
    canvas, one placement. *)
Lemma background_path_ignores_foreground_witness :
  exists l1 l2,
    Demo.run = Ok l1 /\ Demo.run_crop49 = Ok l2
    /\ (bg_height l1 = bg_height l2 /\ bg_width l1 = bg_width l2)
    /\ (top l1 = top l2 /\ left l1 = left l2).
Proof.
  destruct (is_ok_true Demo.run demo_run_returns) as [l1 H1].
  assert (R : is_ok Demo.run_crop49 = true) by (vm_compute; reflexivity).
  destruct (is_ok_true Demo.run_crop49 R) as [l2 H2].
  exists l1, l2. split; [exact H1 | ]. split; [exact H2 | ].
  destruct (@background_path_ignores_foreground _ _ _ _ _ _ _ _ _ l1 l2 H1 H2)
    as [K1 [_ [K2 _]]].
  auto.
Defined.

End FurtherEvaluation.
